(** * irys: a client of a pay-per-byte storage node

    A shallow embedding of the Go package [irys] (the client type, its
    constructor and the operations of the [Irys] interface) and the
    properties of its funded-upload workflow.

    Conventions of the embedding.
    - A Go result pair [(v, err)] is a pair [(v, e)] with [e : option error];
      [None] is the nil error.  A pointer result ([*big.Int], [*types.File],
      [*ecdsa.PublicKey]) is an [option]; [None] is the nil pointer.
      A client that [New] returns has [c.client] and its [http.Client]
      allocated ([New] dereferences both on its way), so the operations
      hold them by value; while the client is built they can be nil, and
      [New] keeps track of that ([Draft]).
    - A run-time panic is the outcome [Panic]; so is a run that the
      runtime ends (a deadlock).
    - Every operation is a method on [*Client]: it runs in the monad [M],
      which threads the client object and the history of interactions with
      the outside world, and returns the events it emitted.
    - Everything outside the two source files (net/http, retryablehttp,
      context, encoding/json, go-ethereum's crypto, the logger, and the
      helpers of this package kept in other files) is a field of [Env]. *)

From Stdlib Require Import ZArith List Bool.
From stdpp Require Import base strings pretty gmap.
Import ListNotations.

Local Open Scope string_scope.
Local Open Scope Z_scope.
Local Open Scope list_scope.

(** ** Data *)

Definition bytes := list Byte.byte.

(** [*big.Int]: a pointer to an unbounded integer. *)
Definition BigInt := option Z.

(** The [String] method of [*big.Int]: a nil receiver prints as "<nil>". *)
Definition BigInt_String (x : BigInt) : string :=
  match x with
  | Some v => pretty v
  | None => "<nil>"
  end.

Inductive error : Type :=
  | ErrCurrencyIsInvalid                       (* errors.ErrCurrencyIsInvalid *)
  | Canceled                                   (* context.Canceled *)
  | DeadlineExceeded                           (* context.DeadlineExceeded *)
  | ErrExternal (origin : string) (msg : string)
  | ErrSizeOutOfRange
  | ErrSessionExpired
  | ErrChunkUploadFailed (offset : Z).

Inductive Outcome (A : Type) : Type :=
  | Ret (a : A)
  | Panic (msg : string).
Arguments Ret {A} a.
Arguments Panic {A} msg.

Inductive Context : Type :=
  | Background
  | Ctx (id : nat).

Definition Node := string.

Record PublicKey := { pk_X : Z; pk_Y : Z }.

Record Signer := { signer_id : nat }.

(** [currency.Currency] is an interface; a value of it is the record of
    its methods' results. *)
Record Currency := {
  GetName : string;
  GetPublicKey : option PublicKey;
  GetSinger : Signer
}.

Record Tag := { tag_name : string; tag_value : string }.

Record Logger := { logger_id : nat }.

Record LoggerOptions := {
  Development : bool;
  Debug : bool;
  EnableCaller : bool;
  SkipCaller : Z
}.

(** An [http.RoundTripper]; [rt_closeIdler] tells whether its dynamic type
    has a [CloseIdleConnections] method. *)
Record RoundTripper := { rt_id : nat; rt_closeIdler : bool }.

Record HTTPClientT := {
  Timeout : Z;                                  (* seconds *)
  Transport : option RoundTripper
}.

Inductive ErrorHandlerT : Type :=
  | NoErrorHandler
  | PassthroughErrorHandler.

(** [retryablehttp.Client], the fields the package sets. *)
Record RetryClient := {
  HTTPClient : HTTPClientT;
  rc_Logger : option Logger;
  RetryMax : Z;
  RetryWaitMin : Z;                             (* seconds *)
  RetryWaitMax : Z;                             (* seconds *)
  ErrorHandler : ErrorHandlerT
}.

Record Mutex := { locked : bool }.

Record Client := {
  mu : option Mutex;
  client : RetryClient;
  network : Node;
  currency : Currency;
  contract : string;
  logging : option Logger;
  debug : bool
}.

(** The object under construction, as an option finds it and leaves it:
    its fields, and whether its pointers [irys.client] and
    [irys.client.HTTPClient] are non-nil (the fields behind a nil pointer
    mean nothing).  The third pointer, [irys.mu], is the field [mu]. *)
Record Draft := {
  obj : Client;
  client_set : bool;
  HTTPClient_set : bool
}.

Definition Option := Draft -> Draft.

Record Request := {
  req_ctx : Context;
  Method : string;
  URL : string;
  req_Body : option bytes;
  req_Header : list (string * string)
}.

Record Response := {
  StatusCode : Z;
  Header : list (string * string);
  ContentLength : Z;
  Body : bytes
}.

(** The types of package [types] are declared outside the two source
    files; the records keep the fields the source reads. *)
Record NodeInfo := { Addresses : gmap string string }.

Record BalanceResponse := { Balance : string }.

Record TxToBalanceRequest := { TxId : string }.

Record Transaction := { tx_ID : string; tx_fields : list (string * string) }.

Record Receipt := {
  Signature : string;
  Timestamp : Z;
  Version : string;
  DeadlineHeight : Z
}.

Record ReceiptNode := { rn_Receipt : Receipt }.
Record ReceiptEdge := { Node_ : ReceiptNode }.
(** A Go slice that can be nil: [None] is the nil slice, [Some []] an
    empty one. *)
Record ReceiptTransactions := { Edges : option (list ReceiptEdge) }.
Record ReceiptData := { Transactions : ReceiptTransactions }.
Record ReceiptResponse := { Data : ReceiptData }.

Record File := {
  f_Data : bytes;
  f_Header : list (string * string);
  f_ContentLength : Z;
  f_ContentType : string
}.

Definition zero_Transaction : Transaction := {| tx_ID := ""; tx_fields := [] |}.
Definition zero_Receipt : Receipt :=
  {| Signature := ""; Timestamp := 0; Version := ""; DeadlineHeight := 0 |}.

(** ** Events: what an operation does to the outside world *)

Inductive event : Type :=
  | EvDo (req : Request)                        (* c.client.Do / c.client.Get *)
  | EvBodyClose (resp : Response)               (* resp.Body.Close() *)
  | EvCtxDone (ctx : Context) (err : error)     (* <-ctx.Done() was ready *)
  | EvCreateTx (amount : BigInt)                (* c.createTx *)
  | EvDebug (l : Logger) (msg : string)         (* c.logging.Debug *)
  | EvCloseIdleConnections (rt : RoundTripper)
  | EvChunkSession (size : Z)
  | EvChunkSend (session : string) (offset : Z) (data : bytes)
  | EvChunkFinalize (session : string).

(** What has happened so far, the latest event first. *)
Definition history := list event.

(** ** The environment *)

Record Env := {
  (* net/http, retryablehttp, context *)
  request_error : string -> string -> option error;
  client_Do : RetryClient -> history -> Request -> Response + error;
  ctx_Err : Context -> history -> option error;
  logger_New : LoggerOptions -> Logger + error;
  json_Marshal : TxToBalanceRequest -> bytes * option error;
  PubkeyToAddress_Hex : PublicKey -> string;
  (* this package, outside the two source files *)
  _defaultGateway : string;
  statusCheck : Response -> option error;
  decodeBody_NodeInfo : bytes -> NodeInfo * option error;
  decodeBody_BigInt : bytes -> BigInt * option error;
  decodeBody_BalanceResponse : bytes -> BalanceResponse * option error;
  decodeBody_Transaction : bytes -> Transaction * option error;
  decodeBody_ReceiptResponse : bytes -> ReceiptResponse * option error;
  ToBigInt : BalanceResponse -> BigInt;
  signFile : bytes -> Signer -> bool -> list Tag -> bytes * option error;
  createTx_result : Client -> history -> Context -> BigInt -> string * option error;
  (* the node's side of the chunked protocol *)
  chunk_size : Z;
  chunk_session : history -> Z -> string + error;
  chunk_send : history -> string -> Z -> bytes -> option error;
  chunk_finalize : history -> string -> list Tag -> Transaction * option error
}.

(** ** The monad of methods on [*Client] *)

Record Res (A : Type) := MkRes {
  outcome : Outcome A;
  client_after : Client;
  emitted : list event
}.
Arguments MkRes {A} _ _ _.
Arguments outcome {A} _.
Arguments client_after {A} _.
Arguments emitted {A} _.

Definition M (A : Type) : Type := Client -> history -> Res A.

Definition ret {A} (a : A) : M A := fun c _ => MkRes (Ret a) c [].

Definition bind {A B} (m : M A) (k : A -> M B) : M B :=
  fun c h =>
    let r := m c h in
    match outcome r with
    | Ret a =>
        let r' := k a (client_after r) (rev (emitted r) ++ h) in
        MkRes (outcome r') (client_after r') (emitted r ++ emitted r')
    | Panic msg => MkRes (Panic msg) (client_after r) (emitted r)
    end.

Notation "'let*' x ':=' m 'in' k" := (bind m (fun x => k))
  (at level 10, x name, m at level 100, k at level 200).
Notation "m ';;' k" := (bind m (fun _ => k))
  (at level 100, k at level 200, right associativity).

Definition panic {A} (msg : string) : M A := fun c _ => MkRes (Panic msg) c [].
Definition get_client : M Client := fun c _ => MkRes (Ret c) c [].
(** An assignment to fields of the client object. *)
Definition modify (f : Client -> Client) : M unit :=
  fun c _ => MkRes (Ret tt) (f c) [].
Definition get_history : M history := fun c h => MkRes (Ret h) c [].
Definition emit (e : event) : M unit := fun c _ => MkRes (Ret tt) c [e].

(** [defer f(); body]: the deferred call runs when the body is left, by a
    return or by a panic. *)
Definition defer {A} (e : event) (body : M A) : M A :=
  fun c h =>
    let r := body c h in
    MkRes (outcome r) (client_after r) (emitted r ++ [e]).

Section Irys.

Context (E : Env).

(** [retryablehttp.NewRequestWithContext]. *)
Definition NewRequestWithContext (ctx : Context) (method url : string)
    (body : option bytes) : Request + error :=
  match request_error E method url with
  | Some err => inr err
  | None =>
      inl {| req_ctx := ctx; Method := method; URL := url;
             req_Body := body; req_Header := [] |}
  end.

Definition Header_Set (req : Request) (k v : string) : Request :=
  {| req_ctx := req_ctx req; Method := Method req; URL := URL req;
     req_Body := req_Body req;
     req_Header := (k, v) :: filter (fun kv => negb (String.eqb (fst kv) k)) (req_Header req) |}.

Definition Header_Add (req : Request) (k v : string) : Request :=
  {| req_ctx := req_ctx req; Method := Method req; URL := URL req;
     req_Body := req_Body req;
     req_Header := req_Header req ++ [(k, v)] |}.

Definition Header_Get (hd : list (string * string)) (k : string) : string :=
  match find (fun kv => String.eqb (fst kv) k) hd with
  | Some kv => snd kv
  | None => ""
  end.

(** [c.client.Do(req)]. *)
Definition Do (req : Request) : M (Response + error) :=
  let* c := get_client in
  let* h := get_history in
  emit (EvDo req);;
  ret (client_Do E (client c) h req).

(** [c.client.Get(url)]: builds the request itself, without a context. *)
Definition Get (url : string) : M (Response + error) :=
  match NewRequestWithContext Background "GET" url None with
  | inr err => ret (inr err)
  | inl req => Do req
  end.

(** [select { case <-ctx.Done(): return (zero, ctx.Err()); default: ... }]:
    [on_done] builds the returned value from [ctx.Err()]. *)
Definition select_Done {R} (ctx : Context) (on_done : error -> R)
    (default : M R) : M R :=
  let* h := get_history in
  match ctx_Err E ctx h with
  | Some err => emit (EvCtxDone ctx err);; ret (on_done err)
  | None => default
  end.

(** ** Source file 1: the client and its constructor *)

Definition debugMsg (msg : string) : M unit :=
  let* c := get_client in
  if debug c then
    match logging c with
    | Some l => emit (EvDebug l msg)
    | None => panic "nil pointer dereference: c.logging"
    end
  else ret tt.

Definition getTokenContractAddress (node : Node) (cur : Currency)
    : M (string * option error) :=
  let* r := Get node in
  match r with
  | inr err => ret ("", Some err)
  | inl r =>
      match statusCheck E r with
      | Some err => ret ("", Some err)
      | None =>
          let '(resp, derr) := decodeBody_NodeInfo E (Body r) in
          match derr with
          | Some err => ret ("", Some err)
          | None =>
              match Addresses resp !! GetName cur with
              | Some v =>
                  debugMsg ("set currency address " +:+ v +:+
                            " base on currency " +:+ GetName cur);;
                  ret (v, None)
              | None => ret ("", Some ErrCurrencyIsInvalid)
              end
          end
      end
  end.

Definition set_HTTPClient (rc : RetryClient) (hc : HTTPClientT) : RetryClient :=
  {| HTTPClient := hc; rc_Logger := rc_Logger rc; RetryMax := RetryMax rc;
     RetryWaitMin := RetryWaitMin rc; RetryWaitMax := RetryWaitMax rc;
     ErrorHandler := ErrorHandler rc |}.

Definition set_rc_Logger (rc : RetryClient) (l : option Logger) : RetryClient :=
  {| HTTPClient := HTTPClient rc; rc_Logger := l; RetryMax := RetryMax rc;
     RetryWaitMin := RetryWaitMin rc; RetryWaitMax := RetryWaitMax rc;
     ErrorHandler := ErrorHandler rc |}.

Definition set_retry (rc : RetryClient) (n wmin wmax : Z) (eh : ErrorHandlerT)
    : RetryClient :=
  {| HTTPClient := HTTPClient rc; rc_Logger := rc_Logger rc; RetryMax := n;
     RetryWaitMin := wmin; RetryWaitMax := wmax; ErrorHandler := eh |}.

Definition set_client (c : Client) (rc : RetryClient) : Client :=
  {| mu := mu c; client := rc; network := network c; currency := currency c;
     contract := contract c; logging := logging c; debug := debug c |}.

Definition set_network (c : Client) (n : Node) : Client :=
  {| mu := mu c; client := client c; network := n; currency := currency c;
     contract := contract c; logging := logging c; debug := debug c |}.

Definition set_currency (c : Client) (cur : Currency) : Client :=
  {| mu := mu c; client := client c; network := network c; currency := cur;
     contract := contract c; logging := logging c; debug := debug c |}.

Definition set_mu (c : Client) (m : option Mutex) : Client :=
  {| mu := m; client := client c; network := network c; currency := currency c;
     contract := contract c; logging := logging c; debug := debug c |}.

Definition set_debug (c : Client) (d : bool) : Client :=
  {| mu := mu c; client := client c; network := network c; currency := currency c;
     contract := contract c; logging := logging c; debug := d |}.

Definition set_logging (c : Client) (l : option Logger) : Client :=
  {| mu := mu c; client := client c; network := network c; currency := currency c;
     contract := contract c; logging := l; debug := debug c |}.

Definition set_contract (c : Client) (a : string) : Client :=
  {| mu := mu c; client := client c; network := network c; currency := currency c;
     contract := a; logging := logging c; debug := debug c |}.

(** [new(Client)]: every field at its zero value. *)
Definition new_Client : Client :=
  {| mu := None;
     client := {| HTTPClient := {| Timeout := 0; Transport := None |};
                  rc_Logger := None; RetryMax := 0; RetryWaitMin := 0;
                  RetryWaitMax := 0; ErrorHandler := NoErrorHandler |};
     network := "";
     currency := {| GetName := ""; GetPublicKey := None;
                    GetSinger := {| signer_id := 0 |} |};
     contract := ""; logging := None; debug := false |}.

(** [retryablehttp.NewClient()]: the library's defaults. *)
Definition retryablehttp_NewClient : RetryClient :=
  {| HTTPClient := {| Timeout := 0;
                      Transport := Some {| rt_id := 1; rt_closeIdler := true |} |};
     rc_Logger := Some {| logger_id := 0 |};
     RetryMax := 4; RetryWaitMin := 1; RetryWaitMax := 30;
     ErrorHandler := NoErrorHandler |}.

(** A clone of [http.DefaultTransport], which is an [*http.Transport]. *)
Definition DefaultTransport_Clone : RoundTripper :=
  {| rt_id := 0; rt_closeIdler := true |}.

Definition default_logger_options : LoggerOptions :=
  {| Development := false; Debug := false; EnableCaller := true; SkipCaller := 4 |}.

(** [irys.mu.Lock()] and [irys.mu.Unlock()].  A nil mutex is a nil
    pointer dereference.  [Lock] on a mutex that is held never returns:
    no one else holds this object, so the run ends there, with the
    runtime's deadlock error; [Unlock] on a free mutex is a fatal error. *)
Definition mu_Lock : M unit :=
  let* c := get_client in
  match mu c with
  | None => panic "invalid memory address or nil pointer dereference"
  | Some m =>
      if locked m then panic "fatal error: all goroutines are asleep - deadlock!"
      else modify (fun irys => set_mu irys (Some {| locked := true |}))
  end.

Definition mu_Unlock : M unit :=
  let* c := get_client in
  match mu c with
  | None => panic "invalid memory address or nil pointer dereference"
  | Some m =>
      if locked m then modify (fun irys => set_mu irys (Some {| locked := false |}))
      else panic "fatal error: sync: unlock of unlocked mutex"
  end.

(** [New], run on the object that [new(Client)] allocates: the fields
    are assigned one after the other; the value returned is the pair
    (the client or nil, the error).  The options run on the object with
    the pointers [New] has just allocated; what they leave nil is
    dereferenced further down, where the Go code panics. *)
Definition New (node : Node) (cur : Currency) (dbg : bool)
    (options : list Option) : M (option Client * option error) :=
  let httpClient := {| Timeout := 300; Transport := None |} in
  modify (fun irys => set_client irys retryablehttp_NewClient);;
  modify (fun irys => set_client irys (set_HTTPClient (client irys) httpClient));;
  modify (fun irys => set_network irys node);;
  modify (fun irys => set_currency irys cur);;
  modify (fun irys => set_mu irys (Some {| locked := false |}));;
  modify (fun irys => set_debug irys dbg);;
  modify (fun irys =>
            set_client irys
              (set_retry (client irys) 5 1 30 PassthroughErrorHandler));;
  let* irys := get_client in
  let d := fold_left (fun d (opt : Option) => opt d) options
             {| obj := irys; client_set := true; HTTPClient_set := true |} in
  modify (fun _ => obj d);;
  let* irys := get_client in
  let* failed :=
    match logging irys with
    | None =>
        match logger_New E default_logger_options with
        | inr err => ret (Some err)
        | inl l => modify (fun irys => set_logging irys (Some l));; ret None
        end
    | Some _ => ret None
    end in
  match failed with
  | Some err => ret (None, Some err)
  | None =>
      if negb (client_set d) then
        panic "invalid memory address or nil pointer dereference"
      else
      modify (fun irys =>
                set_client irys (set_rc_Logger (client irys) (logging irys)));;
      (if negb dbg then
         modify (fun irys => set_client irys (set_rc_Logger (client irys) None))
       else ret tt);;
      if negb (HTTPClient_set d) then
        panic "invalid memory address or nil pointer dereference"
      else
      let* irys := get_client in
      match Transport (HTTPClient (client irys)) with
      | None =>
          modify (fun irys =>
                    set_client irys
                      (set_HTTPClient (client irys)
                         {| Timeout := Timeout (HTTPClient (client irys));
                            Transport := Some DefaultTransport_Clone |}))
      | Some _ => ret tt
      end;;
      mu_Lock;;
      let* r := getTokenContractAddress node cur in
      let '(contract, err) := r in
      match err with
      | Some err => ret (None, Some err)
      | None =>
          mu_Unlock;;
          modify (fun irys => set_contract irys contract);;
          let* irys := get_client in
          ret (Some irys, None)
      end
  end.

Definition Close : M unit :=
  let* c := get_client in
  match Transport (HTTPClient (client c)) with
  | Some tr =>
      if rt_closeIdler tr then emit (EvCloseIdleConnections tr) else ret tt
  | None => ret tt
  end.

(** ** Source file 2: the operations *)

(** The format strings, applied ([%s] of a string is the string, [%v] of
    an int its decimal form). *)
Definition _pricePath (node cur : string) (size : Z) : string :=
  node +:+ "/price/" +:+ cur +:+ "/" +:+ pretty size.
Definition _uploadPath (node cur : string) : string :=
  node +:+ "/tx/" +:+ cur.
Definition _txPath (gateway txId : string) : string :=
  gateway +:+ "/tx/" +:+ txId.
Definition _downloadPath (gateway txId : string) : string :=
  gateway +:+ "/" +:+ txId.
Definition _sendTxToBalance (node : string) : string :=
  node +:+ "/account/balance/matic".
Definition _getBalance (node address : string) : string :=
  node +:+ "/account/balance/matic?address=" +:+ address.
Definition _chunkUpload (node cur : string) (a b : Z) : string :=
  node +:+ "/chunks/" +:+ cur +:+ "/" +:+ pretty a +:+ "/" +:+ pretty b.
Definition _graphql (node : string) : string :=
  node +:+ "/graphql".

Definition dquote : string := String (Ascii.ascii_of_nat 34) EmptyString.

(** The GraphQL query of [GetReceipt], with [txId] in place of [%s]. *)
Definition receipt_query (txId : string) : string :=
  "{" +:+ dquote +:+ "query" +:+ dquote +:+ ":" +:+ dquote +:+
  "query {\n      " +:+
  "transactions(ids: [\" +:+ dquote +:+ txId +:+ "\" +:+ dquote +:+
  "]) {\n        edges {\n         " +:+
  " node {\n            receipt {\n              signature\n              " +:+
  "timestamp\n              version\n              deadlineHeight\n           " +:+
  " }\n          }\n        }\n      }\n    }" +:+ dquote +:+ "," +:+
  dquote +:+ "variables" +:+ dquote +:+ ":{}}".

Definition GetPrice (ctx : Context) (fileSize : Z) : M (BigInt * option error) :=
  let* c := get_client in
  let url := _pricePath (network c) (GetName (currency c)) fileSize in
  match NewRequestWithContext ctx "GET" url None with
  | inr err => ret (None, Some err)
  | inl req =>
      let* r := Do req in
      match r with
      | inr err => ret (None, Some err)
      | inl resp =>
          defer (EvBodyClose resp)
            (select_Done ctx (fun err => (None, Some err))
               match statusCheck E resp with
               | Some err => ret (None, Some err)
               | None => ret (decodeBody_BigInt E (Body resp))
               end)
      end
  end.

Definition GetBalance (ctx : Context) : M (BigInt * option error) :=
  let* c := get_client in
  match GetPublicKey (currency c) with
  | None => panic "invalid memory address or nil pointer dereference"
  | Some pbKey =>
      let url := _getBalance (network c) (PubkeyToAddress_Hex E pbKey) in
      match NewRequestWithContext ctx "GET" url None with
      | inr err => ret (None, Some err)
      | inl req =>
          let* r := Do req in
          match r with
          | inr err => ret (None, Some err)
          | inl resp =>
              defer (EvBodyClose resp)
                (select_Done ctx (fun err => (None, Some err))
                   match statusCheck E resp with
                   | Some err => ret (None, Some err)
                   | None =>
                       let '(b, derr) := decodeBody_BalanceResponse E (Body resp) in
                       match derr with
                       | Some err => ret (None, Some err)
                       | None => ret (ToBigInt E b, None)
                       end
                   end)
          end
      end
  end.

(** Modelled from the spec: [createTx], a method of the client, is kept
    outside the two source files.  Sections 4.2 and 6: the currency
    provider constructs and broadcasts a funding transaction of the given
    amount and yields its hash, or fails; it may do network I/O of its
    own. *)
Definition createTx (ctx : Context) (amount : BigInt) : M (string * option error) :=
  let* c := get_client in
  let* h := get_history in
  emit (EvCreateTx amount);;
  ret (createTx_result E c h ctx amount).

Definition TopUpBalance (ctx : Context) (amount : BigInt) : M (option error) :=
  let* c := get_client in
  let urlConfirm := _sendTxToBalance (network c) in
  let* tx := createTx ctx amount in
  let '(hash, err) := tx in
  match err with
  | Some err => ret (Some err)
  | None =>
      let '(b, merr) := json_Marshal E {| TxId := hash |} in
      match merr with
      | Some err => ret (Some err)
      | None =>
          match NewRequestWithContext ctx "POST" urlConfirm (Some b) with
          | inr err => ret (Some err)
          | inl req =>
              let req := Header_Set req "Content-Type" "application/json" in
              let* r := Do req in
              match r with
              | inr err => ret (Some err)
              | inl resp =>
                  defer (EvBodyClose resp)
                    (select_Done ctx (fun err => Some err)
                       (ret (statusCheck E resp)))
              end
          end
      end
  end.

Definition Download (ctx : Context) (txId : string) : M (option File * option error) :=
  let url := _downloadPath (_defaultGateway E) txId in
  match NewRequestWithContext ctx "GET" url None with
  | inr err => ret (None, Some err)
  | inl req =>
      let* r := Do req in
      match r with
      | inr err => ret (None, Some err)
      | inl resp =>
          select_Done ctx (fun err => (None, Some err))
            match statusCheck E resp with
            | Some err => ret (None, Some err)
            | None =>
                ret (Some {| f_Data := Body resp;
                             f_Header := Header resp;
                             f_ContentLength := ContentLength resp;
                             f_ContentType := Header_Get (Header resp) "Content-Type" |},
                     None)
            end
      end
  end.

Definition GetMetaData (ctx : Context) (txId : string) : M (Transaction * option error) :=
  let url := _txPath (_defaultGateway E) txId in
  match NewRequestWithContext ctx "GET" url None with
  | inr err => ret (zero_Transaction, Some err)
  | inl req =>
      let* r := Do req in
      match r with
      | inr err => ret (zero_Transaction, Some err)
      | inl resp =>
          defer (EvBodyClose resp)
            (select_Done ctx (fun err => (zero_Transaction, Some err))
               match statusCheck E resp with
               | Some err => ret (zero_Transaction, Some err)
               | None => ret (decodeBody_Transaction E (Body resp))
               end)
      end
  end.

Definition GetReceipt (ctx : Context) (txId : string) : M (Receipt * option error) :=
  let* c := get_client in
  let url := _graphql (network c) in
  let body := String.list_byte_of_string (receipt_query txId) in
  match NewRequestWithContext ctx "POST" url (Some body) with
  | inr err => ret (zero_Receipt, Some err)
  | inl req =>
      let req := Header_Add req "Content-Type" "application/json" in
      let* r := Do req in
      match r with
      | inr err => ret (zero_Receipt, Some err)
      | inl resp =>
          defer (EvBodyClose resp)
            (select_Done ctx (fun err => (zero_Receipt, Some err))
               match statusCheck E resp with
               | Some err => ret (zero_Receipt, Some err)
               | None =>
                   let '(response, derr) := decodeBody_ReceiptResponse E (Body resp) in
                   match derr with
                   | Some err => ret (zero_Receipt, Some err)
                   | None =>
                       match Edges (Transactions (Data response)) with
                       | Some edges =>
                           match edges with
                           | e0 :: _ => ret (rn_Receipt (Node_ e0), None)
                           | [] => panic "index out of range [0] with length 0"
                           end
                       | None => ret (zero_Receipt, None)
                       end
                   end
               end)
      end
  end.

Definition upload (ctx : Context) (url : string) (file : bytes) (tags : list Tag)
    : M (Transaction * option error) :=
  let* c := get_client in
  let '(b, serr) := signFile E file (GetSinger (currency c)) false tags in
  match serr with
  | Some err => ret (zero_Transaction, Some err)
  | None =>
      match NewRequestWithContext ctx "POST" url (Some b) with
      | inr err => ret (zero_Transaction, Some err)
      | inl req =>
          let req := Header_Set req "Content-Type" "application/octet-stream" in
          debugMsg "[Upload] create upload request";;
          let* r := Do req in
          match r with
          | inr err => ret (zero_Transaction, Some err)
          | inl resp =>
              defer (EvBodyClose resp)
                (select_Done ctx (fun err => (zero_Transaction, Some err))
                   match statusCheck E resp with
                   | Some err => ret (zero_Transaction, Some err)
                   | None => ret (decodeBody_Transaction E (Body resp))
                   end)
          end
      end
  end.

(** [x.Cmp(y)] of math/big: equal pointers (two nil ones among them)
    compare equal without being dereferenced; otherwise both are. *)
Definition BigInt_Cmp (x y : BigInt) : Outcome Z :=
  match x, y with
  | Some a, Some b =>
      Ret (match Z.compare a b with Lt => -1 | Eq => 0 | Gt => 1 end)
  | None, None => Ret 0
  | _, _ => Panic "invalid memory address or nil pointer dereference"
  end.

Definition BasicUpload (ctx : Context) (file : bytes) (tags : list Tag)
    : M (Transaction * option error) :=
  let* c := get_client in
  let url := _uploadPath (network c) (GetName (currency c)) in
  let* p := GetPrice ctx (Z.of_nat (length file)) in
  let '(price, err) := p in
  match err with
  | Some err => ret (zero_Transaction, Some err)
  | None =>
      debugMsg ("[BasicUpload] get price " +:+ BigInt_String price);;
      let* b := GetBalance ctx in
      let '(balance, err) := b in
      match err with
      | Some err => ret (zero_Transaction, Some err)
      | None =>
          debugMsg ("[BasicUpload] get balance " +:+ BigInt_String balance);;
          match BigInt_Cmp balance price with
          | Panic msg => panic msg
          | Ret cmp =>
              let* funded :=
                if cmp <? 0 then
                  let* err := TopUpBalance ctx price in
                  match err with
                  | Some err => ret (Some err)
                  | None => debugMsg "[BasicUpload] topUp balance";; ret None
                  end
                else ret None in
              match funded with
              | Some err => ret (zero_Transaction, Some err)
              | None => upload ctx url file tags
              end
          end
      end
  end.

Definition Upload (ctx : Context) (file : bytes) (tags : list Tag)
    : M (Transaction * option error) :=
  let* c := get_client in
  let url := _uploadPath (network c) (GetName (currency c)) in
  upload ctx url file tags.

(** ** The chunked upload *)

(** Modelled from the spec: the size limits of [ChunkUpload], whose
    declarations are outside the two source files.  Section 4.4 gives a
    minimum of 500 KB and a maximum of 95 MB. *)
Definition _minChunkSize : Z := 500 * 1024.
Definition _maxChunkSize : Z := 95 * 1024 * 1024.

(** The payload cut at multiples of [n] bytes, each piece with its offset. *)
Fixpoint split_chunks (fuel : nat) (n : nat) (offset : Z) (data : bytes)
    : list (Z * bytes) :=
  match fuel with
  | O => []
  | S fuel' =>
      match data with
      | [] => []
      | _ => (offset, firstn n data)
               :: split_chunks fuel' n (offset + Z.of_nat n) (skipn n data)
      end
  end.

Fixpoint send_chunks (sid : string) (cs : list (Z * bytes)) : M (option error) :=
  match cs with
  | [] => ret None
  | (off, d) :: rest =>
      let* h := get_history in
      emit (EvChunkSend sid off d);;
      match chunk_send E h sid off d with
      | Some ErrSessionExpired => ret (Some ErrSessionExpired)
      | Some _ => ret (Some (ErrChunkUploadFailed off))
      | None => send_chunks sid rest
      end
  end.

(** Modelled from the spec: [ChunkUpload], whose body is outside the two
    source files.  Section 4.4: a payload below the minimum or above the
    maximum size fails fast with SizeOutOfRange; otherwise a session is
    created when no id was supplied, the payload is sent chunk by chunk
    (a failed chunk fails the upload with its offset, an expired session
    with SessionExpired), and a finalize call commits the item.  The
    chunks, which the protocol lets travel concurrently, are sent here in
    the order of their offsets. *)
Definition ChunkUpload (ctx : Context) (file : bytes) (chunkId : string)
    (tags : list Tag) : M (Transaction * option error) :=
  let size := Z.of_nat (length file) in
  if (size <? _minChunkSize) || (_maxChunkSize <? size) then
    ret (zero_Transaction, Some ErrSizeOutOfRange)
  else
    let* session :=
      if String.eqb chunkId "" then
        let* h := get_history in
        emit (EvChunkSession size);;
        ret (chunk_session E h size)
      else ret (inl chunkId) in
    match session with
    | inr err => ret (zero_Transaction, Some err)
    | inl sid =>
        let n := Nat.max 1 (Z.to_nat (chunk_size E)) in
        let* sent := send_chunks sid (split_chunks (length file) n 0 file) in
        match sent with
        | Some err => ret (zero_Transaction, Some err)
        | None =>
            let* h := get_history in
            emit (EvChunkFinalize sid);;
            ret (chunk_finalize E h sid tags)
        end
    end.

(** ** The [Irys] interface *)

Inductive call : Type :=
  | CallGetPrice (ctx : Context) (fileSize : Z)
  | CallBasicUpload (ctx : Context) (file : bytes) (tags : list Tag)
  | CallUpload (ctx : Context) (file : bytes) (tags : list Tag)
  | CallChunkUpload (ctx : Context) (file : bytes) (chunkId : string) (tags : list Tag)
  | CallDownload (ctx : Context) (txId : string)
  | CallGetMetaData (ctx : Context) (txId : string)
  | CallGetBalance (ctx : Context)
  | CallTopUpBalance (ctx : Context) (amount : BigInt)
  | CallGetReceipt (ctx : Context) (txId : string)
  | CallClose.

(** What a call hands back besides its error. *)
Inductive value : Type :=
  | VBigInt (v : BigInt)
  | VTransaction (t : Transaction)
  | VFile (f : option File)
  | VReceipt (r : Receipt)
  | VNothing.

Definition returning {A} (inj : A -> value) (m : M (A * option error))
    : M (value * option error) :=
  let* r := m in ret (inj (fst r), snd r).

Definition invoke (op : call) : M (value * option error) :=
  match op with
  | CallGetPrice ctx fileSize => returning VBigInt (GetPrice ctx fileSize)
  | CallBasicUpload ctx file tags => returning VTransaction (BasicUpload ctx file tags)
  | CallUpload ctx file tags => returning VTransaction (Upload ctx file tags)
  | CallChunkUpload ctx file chunkId tags =>
      returning VTransaction (ChunkUpload ctx file chunkId tags)
  | CallDownload ctx txId => returning VFile (Download ctx txId)
  | CallGetMetaData ctx txId => returning VTransaction (GetMetaData ctx txId)
  | CallGetBalance ctx => returning VBigInt (GetBalance ctx)
  | CallTopUpBalance ctx amount =>
      let* err := TopUpBalance ctx amount in ret (VNothing, err)
  | CallGetReceipt ctx txId => returning VReceipt (GetReceipt ctx txId)
  | CallClose => Close;; ret (VNothing, None)
  end.

(** The zero value of a call's result type. *)
Definition zero_value (op : call) : value :=
  match op with
  | CallGetPrice _ _ | CallGetBalance _ => VBigInt None
  | CallBasicUpload _ _ _ | CallUpload _ _ _ | CallChunkUpload _ _ _ _
  | CallGetMetaData _ _ => VTransaction zero_Transaction
  | CallDownload _ _ => VFile None
  | CallGetReceipt _ _ => VReceipt zero_Receipt
  | CallTopUpBalance _ _ | CallClose => VNothing
  end.

(** The operations whose response is examined under a [select] on the
    context, with that context. *)
Definition selects_on (op : call) : option Context :=
  match op with
  | CallGetPrice ctx _ | CallBasicUpload ctx _ _ | CallUpload ctx _ _
  | CallDownload ctx _ | CallGetMetaData ctx _ | CallGetBalance ctx
  | CallTopUpBalance ctx _ | CallGetReceipt ctx _ => Some ctx
  | CallChunkUpload _ _ _ _ | CallClose => None
  end.

End Irys.

(** ** Reading a trace *)

(** The amounts of the funding transactions issued, in order. *)
Definition funding_txs (evs : list event) : list BigInt :=
  flat_map (fun e => match e with EvCreateTx a => [a] | _ => [] end) evs.

(** The requests sent through the HTTP client, in order. *)
Definition requests (evs : list event) : list Request :=
  flat_map (fun e => match e with EvDo r => [r] | _ => [] end) evs.

(** A client whose logger is set whenever it is in debug mode, as [New]
    leaves every client. *)
Definition well_formed (c : Client) : Prop :=
  debug c = true -> logging c <> None.

(** The history once [m] has run. *)
Definition after {A} (m : M A) (c : Client) (h : history) : history :=
  rev (emitted (m c h)) ++ h.

(** [graft pre r]: the result [r] of a continuation, behind the events
    [pre] of what ran before it. *)
Definition graft {A} (pre : list event) (r : Res A) : Res A :=
  MkRes (outcome r) (client_after r) (pre ++ emitted r).


(** The request [getTokenContractAddress] sends: a GET of the node's root. *)
Definition info_request (node : Node) : Request :=
  {| req_ctx := Background; Method := "GET"; URL := node;
     req_Body := None; req_Header := [] |}.

(** ** Three properties of a computation, each closed under the monad *)

(** [preserves m]: running [m] leaves the client object as it found it. *)
Definition preserves {A} (m : M A) : Prop :=
  forall c h, client_after (m c h) = c.

(** [always Q m]: every event [m] emits satisfies [Q]. *)
Definition always {A} (Q : event -> Prop) (m : M A) : Prop :=
  forall c h ev, In ev (emitted (m c h)) -> Q ev.

(** [never P m]: [m] emits no event that satisfies [P]. *)
Definition never {A} (P : event -> Prop) (m : M A) : Prop :=
  always (fun ev => ~ P ev) m.

(** [done_at_response E ctx rc h evs]: what [ctx.Err()] reports at the
    first moment of the trace [evs] (emitted from the history [h] on) at
    which a response has just arrived and the context is done.  It goes
    through the requests of the trace; for one that the HTTP client [rc]
    answers with a response, it asks [ctx_Err] at the history that ends
    with this request: the history at which a [select] that follows the
    [Do] call reads the context.  It reads the requests of the trace and
    the answers of the environment, nothing else. *)
Fixpoint done_at_response (E : Env) (ctx : Context) (rc : RetryClient)
    (h : history) (evs : list event) : option error :=
  match evs with
  | [] => None
  | ev :: rest =>
      match ev with
      | EvDo req =>
          match client_Do E rc h req with
          | inl _ =>
              match ctx_Err E ctx (ev :: h) with
              | Some e => Some e
              | None => done_at_response E ctx rc (ev :: h) rest
              end
          | inr _ => done_at_response E ctx rc (ev :: h) rest
          end
      | _ => done_at_response E ctx rc (ev :: h) rest
      end
  end.

(** [heeds E ctx on_done m]: when [ctx] is done as a response to a request
    of [m] arrives, [m] returns [on_done] of the context's error. *)
Definition heeds {R} (E : Env) (ctx : Context) (on_done : error -> R)
    (m : M R) : Prop :=
  forall c h e,
    done_at_response E ctx (client c) h (emitted (m c h)) = Some e ->
    outcome (m c h) = Ret (on_done e).

(** [obliging E]: nothing but the context stands in the way of a call.
    Every request can be built and is answered with a response, and the
    signer, the currency provider and the marshaller succeed. *)
Definition obliging (E : Env) : Prop :=
  (forall method url, request_error E method url = None) /\
  (forall rc h req, exists resp, client_Do E rc h req = inl resp) /\
  (forall file s b tags, snd (signFile E file s b tags) = None) /\
  (forall c h ctx amount, snd (createTx_result E c h ctx amount) = None) /\
  (forall x, snd (json_Marshal E x) = None).

Definition is_funding (ev : event) : Prop :=
  exists a, ev = EvCreateTx a.

Definition is_request (ev : event) : Prop :=
  exists r, ev = EvDo r.


(** ** A simulated node

    A concrete environment: a node that quotes one price, holds one
    balance, advertises one address map and answers the receipt query with
    one edge list; on it the operations run to a value. *)

Module Sim.

Record config := {
  price : Z;
  balance : Z;
  price_status : Z;                  (* the status of the price endpoint *)
  upload_status : Z;                 (* the status of the upload endpoint *)
  addresses : gmap string string;
  edges : option (list ReceiptEdge);
  done : option error                (* the state of every context *)
}.

Definition node : Node := "https://node2.irys.xyz".

Definition contains (sub s : string) : bool :=
  match String.index 0 sub s with
  | Some _ => true
  | None => false
  end.

Definition body_of (s : string) : bytes := String.list_byte_of_string s.

Definition ok (body : string) : Response + error :=
  inl {| StatusCode := 200; Header := [("Content-Type", "application/json")];
         ContentLength := Z.of_nat (String.length body); Body := body_of body |}.

Definition edges_text (es : option (list ReceiptEdge)) : string :=
  match es with
  | None => "null"
  | Some [] => "[]"
  | Some _ => "[...]"
  end.

Definition Do (cfg : config) (_ : RetryClient) (_ : history) (req : Request)
    : Response + error :=
  if contains "/price/" (URL req) then
    inl {| StatusCode := price_status cfg; Header := [];
           ContentLength := 0; Body := body_of (pretty (price cfg)) |}
  else if contains "/account/balance/" (URL req) then
    if String.eqb (Method req) "GET" then ok (pretty (balance cfg)) else ok "true"
  else if contains "/graphql" (URL req) then ok (edges_text (edges cfg))
  else if contains "/tx/" (URL req) then
    inl {| StatusCode := upload_status cfg; Header := [];
           ContentLength := 4; Body := body_of "tx-1" |}
  else ok "info".

Definition status (r : Response) : option error :=
  if (200 <=? StatusCode r) && (StatusCode r <? 300) then None
  else Some (ErrExternal "statusCheck" (pretty (StatusCode r))).

Definition signed (file : bytes) (tags : list Tag) : bytes :=
  body_of "signed:" ++ file.

Definition env (cfg : config) : Env :=
  {| request_error := fun _ _ => None;
     client_Do := Do cfg;
     ctx_Err := fun _ _ => done cfg;
     logger_New := fun _ => inl {| logger_id := 7 |};
     json_Marshal := fun r => (body_of (TxId r), None);
     PubkeyToAddress_Hex := fun k => "0x" +:+ pretty (pk_X k);
     _defaultGateway := "https://gateway.irys.xyz";
     statusCheck := status;
     decodeBody_NodeInfo := fun _ => ({| Addresses := addresses cfg |}, None);
     decodeBody_BigInt := fun _ => (Some (price cfg), None);
     decodeBody_BalanceResponse :=
       fun _ => ({| Balance := pretty (balance cfg) |}, None);
     decodeBody_Transaction :=
       fun b => ({| tx_ID := String.string_of_list_byte b; tx_fields := [] |}, None);
     decodeBody_ReceiptResponse :=
       fun _ => ({| Data := {| Transactions := {| Edges := edges cfg |} |} |}, None);
     ToBigInt := fun _ => Some (balance cfg);
     signFile := fun file _ _ tags => (signed file tags, None);
     createTx_result := fun _ _ _ _ => ("0xfeed", None);
     chunk_size := 1024;
     chunk_session := fun _ _ => inl "session-1";
     chunk_send := fun _ _ _ _ => None;
     chunk_finalize :=
       fun _ sid _ => ({| tx_ID := sid; tx_fields := [] |}, None) |}.

Definition matic : Currency :=
  {| GetName := "matic";
     GetPublicKey := Some {| pk_X := 11; pk_Y := 22 |};
     GetSinger := {| signer_id := 1 |} |}.

Definition ethereum : Currency :=
  {| GetName := "ethereum";
     GetPublicKey := Some {| pk_X := 33; pk_Y := 44 |};
     GetSinger := {| signer_id := 2 |} |}.

(** A currency whose [GetPublicKey] yields a nil pointer. *)
Definition keyless : Currency :=
  {| GetName := "matic"; GetPublicKey := None;
     GetSinger := {| signer_id := 3 |} |}.

Definition funded : config :=
  {| price := 50; balance := 80; price_status := 200; upload_status := 200;
     addresses := {[ "matic" := "0xa11ce" ]};
     edges := None; done := None |}.

Definition short : config :=
  {| price := 50; balance := 0; price_status := 200; upload_status := 200;
     addresses := {[ "matic" := "0xa11ce" ]};
     edges := None; done := None |}.

Definition with_edges (es : option (list ReceiptEdge)) : config :=
  {| price := 50; balance := 80; price_status := 200; upload_status := 200;
     addresses := {[ "matic" := "0xa11ce" ]};
     edges := es; done := None |}.


Definition cancelled : config :=
  {| price := 50; balance := 0; price_status := 200; upload_status := 200;
     addresses := {[ "matic" := "0xa11ce" ]};
     edges := None; done := Some Canceled |}.

Definition unknown_currency : config :=
  {| price := 0; balance := 0; price_status := 400; upload_status := 400;
     addresses := {[ "matic" := "0xa11ce" ]};
     edges := None; done := None |}.

(** A client as [New] leaves it. *)
Definition client_of (cur : Currency) (dbg : bool) : Client :=
  {| mu := Some {| locked := false |};
     client :=
       {| HTTPClient := {| Timeout := 300; Transport := Some DefaultTransport_Clone |};
          rc_Logger := if dbg then Some {| logger_id := 7 |} else None;
          RetryMax := 5; RetryWaitMin := 1; RetryWaitMax := 30;
          ErrorHandler := PassthroughErrorHandler |};
     network := node;
     currency := cur;
     contract := "0xa11ce";
     logging := Some {| logger_id := 7 |};
     debug := dbg |}.

Definition payload : bytes := body_of "hello".

End Sim.

(** ** More ways to read a trace *)

Definition is_close (ev : event) : Prop :=
  exists r, ev = EvBodyClose r.

Definition is_log (ev : event) : Prop :=
  exists l msg, ev = EvDebug l msg.

(** The response bodies closed, in order. *)
Definition closed_bodies (evs : list event) : list Response :=
  flat_map (fun e => match e with EvBodyClose r => [r] | _ => [] end) evs.

(** [sends_at_most n m]: [m] sends at most [n] requests. *)
Definition sends_at_most {A} (n : nat) (m : M A) : Prop :=
  forall c h, (length (requests (emitted (m c h))) <= n)%nat.

(** [funds_at_most n m]: [m] issues at most [n] funding transactions. *)
Definition funds_at_most {A} (n : nat) (m : M A) : Prop :=
  forall c h, (length (funding_txs (emitted (m c h))) <= n)%nat.

(** [returns P m]: whatever [m] returns satisfies [P]. *)
Definition returns {R} (P : R -> Prop) (m : M R) : Prop :=
  forall c h a, outcome (m c h) = Ret a -> P a.

(** A result pair that carries the zero value whenever it carries an error. *)
Definition zero_on_error {A} (zero : A) (r : A * option error) : Prop :=
  snd r <> None -> fst r = zero.

(** [hushed m]: on a client whose debug flag is off, [m] logs nothing. *)
Definition hushed {A} (m : M A) : Prop :=
  forall c h ev, debug c = false -> In ev (emitted (m c h)) -> ~ is_log ev.

(** The requests of the node and gateway endpoints. *)
Definition get_request (ctx : Context) (url : string) : Request :=
  {| req_ctx := ctx; Method := "GET"; URL := url;
     req_Body := None; req_Header := [] |}.

Definition post_json (ctx : Context) (url : string) (body : bytes) : Request :=
  {| req_ctx := ctx; Method := "POST"; URL := url;
     req_Body := Some body;
     req_Header := [("Content-Type", "application/json")] |}.

(** ** A laboratory: one answer of an environment replaced *)

Module Lab.

Definition with_Do (E : Env)
    (f : RetryClient -> history -> Request -> Response + error) : Env :=
  {| request_error := request_error E; client_Do := f; ctx_Err := ctx_Err E;
     logger_New := logger_New E; json_Marshal := json_Marshal E;
     PubkeyToAddress_Hex := PubkeyToAddress_Hex E;
     _defaultGateway := _defaultGateway E; statusCheck := statusCheck E;
     decodeBody_NodeInfo := decodeBody_NodeInfo E;
     decodeBody_BigInt := decodeBody_BigInt E;
     decodeBody_BalanceResponse := decodeBody_BalanceResponse E;
     decodeBody_Transaction := decodeBody_Transaction E;
     decodeBody_ReceiptResponse := decodeBody_ReceiptResponse E;
     ToBigInt := ToBigInt E; signFile := signFile E;
     createTx_result := createTx_result E;
     chunk_size := chunk_size E; chunk_session := chunk_session E;
     chunk_send := chunk_send E; chunk_finalize := chunk_finalize E |}.

Definition with_createTx (E : Env)
    (f : Client -> history -> Context -> BigInt -> string * option error) : Env :=
  {| request_error := request_error E; client_Do := client_Do E;
     ctx_Err := ctx_Err E;
     logger_New := logger_New E; json_Marshal := json_Marshal E;
     PubkeyToAddress_Hex := PubkeyToAddress_Hex E;
     _defaultGateway := _defaultGateway E; statusCheck := statusCheck E;
     decodeBody_NodeInfo := decodeBody_NodeInfo E;
     decodeBody_BigInt := decodeBody_BigInt E;
     decodeBody_BalanceResponse := decodeBody_BalanceResponse E;
     decodeBody_Transaction := decodeBody_Transaction E;
     decodeBody_ReceiptResponse := decodeBody_ReceiptResponse E;
     ToBigInt := ToBigInt E; signFile := signFile E;
     createTx_result := f;
     chunk_size := chunk_size E; chunk_session := chunk_session E;
     chunk_send := chunk_send E; chunk_finalize := chunk_finalize E |}.

Definition with_signFile (E : Env)
    (f : bytes -> Signer -> bool -> list Tag -> bytes * option error) : Env :=
  {| request_error := request_error E; client_Do := client_Do E;
     ctx_Err := ctx_Err E;
     logger_New := logger_New E; json_Marshal := json_Marshal E;
     PubkeyToAddress_Hex := PubkeyToAddress_Hex E;
     _defaultGateway := _defaultGateway E; statusCheck := statusCheck E;
     decodeBody_NodeInfo := decodeBody_NodeInfo E;
     decodeBody_BigInt := decodeBody_BigInt E;
     decodeBody_BalanceResponse := decodeBody_BalanceResponse E;
     decodeBody_Transaction := decodeBody_Transaction E;
     decodeBody_ReceiptResponse := decodeBody_ReceiptResponse E;
     ToBigInt := ToBigInt E; signFile := f;
     createTx_result := createTx_result E;
     chunk_size := chunk_size E; chunk_session := chunk_session E;
     chunk_send := chunk_send E; chunk_finalize := chunk_finalize E |}.

Definition with_logger (E : Env) (f : LoggerOptions -> Logger + error) : Env :=
  {| request_error := request_error E; client_Do := client_Do E;
     ctx_Err := ctx_Err E;
     logger_New := f; json_Marshal := json_Marshal E;
     PubkeyToAddress_Hex := PubkeyToAddress_Hex E;
     _defaultGateway := _defaultGateway E; statusCheck := statusCheck E;
     decodeBody_NodeInfo := decodeBody_NodeInfo E;
     decodeBody_BigInt := decodeBody_BigInt E;
     decodeBody_BalanceResponse := decodeBody_BalanceResponse E;
     decodeBody_Transaction := decodeBody_Transaction E;
     decodeBody_ReceiptResponse := decodeBody_ReceiptResponse E;
     ToBigInt := ToBigInt E; signFile := signFile E;
     createTx_result := createTx_result E;
     chunk_size := chunk_size E; chunk_session := chunk_session E;
     chunk_send := chunk_send E; chunk_finalize := chunk_finalize E |}.

Definition timeout : error := ErrExternal "net/http" "timeout".

(** A node whose balance endpoint cannot be reached. *)
Definition balance_down : Env :=
  with_Do (Sim.env Sim.short)
    (fun rc h req =>
       if Sim.contains "/account/balance/" (URL req) then inr timeout
       else Sim.Do Sim.short rc h req).

(** A node that cannot be reached at all. *)
Definition unreachable : Env :=
  with_Do (Sim.env Sim.funded) (fun _ _ _ => inr timeout).

(** A currency provider whose broadcast fails. *)
Definition broadcast_fails : Env :=
  with_createTx (Sim.env Sim.short)
    (fun _ _ _ _ => ("", Some (ErrExternal "rpc" "insufficient funds"))).

(** A signer that rejects the payload. *)
Definition signer_rejects : Env :=
  with_signFile (Sim.env Sim.funded)
    (fun _ _ _ _ => ([], Some (ErrExternal "signer" "rejected"))).

(** A logger that cannot be built. *)
Definition no_logger : Env :=
  with_logger (Sim.env Sim.funded)
    (fun _ => inr (ErrExternal "logger" "cannot build")).

Definition receipt : Receipt :=
  {| Signature := "sig"; Timestamp := 1700000000; Version := "1.0.0";
     DeadlineHeight := 1234 |}.

Definition edge (r : Receipt) : ReceiptEdge :=
  {| Node_ := {| rn_Receipt := r |} |}.

End Lab.

(** The object as the options find it: what [New] has assigned before it
    runs them. *)
Definition base_client (node : Node) (cur : Currency) (dbg : bool) : Client :=
  {| mu := Some {| locked := false |};
     client :=
       {| HTTPClient := {| Timeout := 300; Transport := None |};
          rc_Logger := rc_Logger retryablehttp_NewClient;
          RetryMax := 5; RetryWaitMin := 1; RetryWaitMax := 30;
          ErrorHandler := PassthroughErrorHandler |};
     network := node; currency := cur; contract := "";
     logging := None; debug := dbg |}.

(** The object as the options leave it. *)
Definition after_options (node : Node) (cur : Currency) (dbg : bool)
    (options : list Option) : Draft :=
  fold_left (fun d (opt : Option) => opt d) options
    {| obj := base_client node cur dbg;
       client_set := true; HTTPClient_set := true |}.

(** An option that clears the mutex of the object. *)
Definition drops_mutex : Option :=
  fun d => {| obj := set_mu (obj d) None;
              client_set := client_set d;
              HTTPClient_set := HTTPClient_set d |}.

(** The client [New] builds when no option is given. *)
Definition default_client (node : Node) (cur : Currency) (dbg : bool)
    (l : Logger) (locked_ : bool) (address : string) : Client :=
  {| mu := Some {| locked := locked_ |};
     client :=
       {| HTTPClient := {| Timeout := 300; Transport := Some DefaultTransport_Clone |};
          rc_Logger := if dbg then Some l else None;
          RetryMax := 5; RetryWaitMin := 1; RetryWaitMax := 30;
          ErrorHandler := PassthroughErrorHandler |};
     network := node; currency := cur; contract := address;
     logging := Some l; debug := dbg |}.

(** * Properties *)

(** ** Laws of the monad *)

Lemma emitted_bind {A B} (m : M A) (k : A -> M B) c h :
  emitted (bind m k c h) =
  emitted (m c h) ++
  match outcome (m c h) with
  | Ret a => emitted (k a (client_after (m c h)) (rev (emitted (m c h)) ++ h))
  | Panic _ => []
  end.
Proof.
  unfold bind. destruct (outcome (m c h)); simpl; [reflexivity|].
  now rewrite app_nil_r.
Qed.

Lemma outcome_bind {A B} (m : M A) (k : A -> M B) c h :
  outcome (bind m k c h) =
  match outcome (m c h) with
  | Ret a => outcome (k a (client_after (m c h)) (rev (emitted (m c h)) ++ h))
  | Panic msg => Panic msg
  end.
Proof. unfold bind. now destruct (outcome (m c h)). Qed.

Lemma client_after_bind {A B} (m : M A) (k : A -> M B) c h :
  client_after (bind m k c h) =
  match outcome (m c h) with
  | Ret a => client_after (k a (client_after (m c h)) (rev (emitted (m c h)) ++ h))
  | Panic _ => client_after (m c h)
  end.
Proof. unfold bind. now destruct (outcome (m c h)). Qed.

(** ** The three properties are closed under the monad *)

Section Closure.

Context {A B : Type}.

Lemma preserves_ret (a : A) : preserves (ret a).
Proof. now intros c h. Qed.

Lemma preserves_panic msg : preserves (@panic A msg).
Proof. now intros c h. Qed.

Lemma preserves_emit e : preserves (emit e).
Proof. now intros c h. Qed.

Lemma preserves_get_client : preserves get_client.
Proof. now intros c h. Qed.

Lemma preserves_get_history : preserves get_history.
Proof. now intros c h. Qed.

Lemma preserves_bind (m : M A) (k : A -> M B) :
  preserves m -> (forall a, preserves (k a)) -> preserves (bind m k).
Proof.
  intros Hm Hk c h. rewrite client_after_bind.
  destruct (outcome (m c h)); [rewrite Hk|]; apply Hm.
Qed.

Lemma preserves_defer e (m : M A) : preserves m -> preserves (defer e m).
Proof. intros Hm c h. apply Hm. Qed.

Lemma always_ret Q (a : A) : always Q (ret a).
Proof. intros c h ev []. Qed.

Lemma always_panic Q msg : always Q (@panic A msg).
Proof. intros c h ev []. Qed.

Lemma always_emit (Q : event -> Prop) e : Q e -> always Q (emit e).
Proof. intros Hq c h ev [<-|[]]. exact Hq. Qed.

Lemma always_get_client Q : always Q get_client.
Proof. intros c h ev []. Qed.

Lemma always_get_history Q : always Q get_history.
Proof. intros c h ev []. Qed.

Lemma always_bind Q (m : M A) (k : A -> M B) :
  always Q m -> (forall a, always Q (k a)) -> always Q (bind m k).
Proof.
  intros Hm Hk c h ev. rewrite emitted_bind, in_app_iff.
  intros [Hin|Hin]; [now apply Hm in Hin|].
  destruct (outcome (m c h)); [now apply Hk in Hin|destruct Hin].
Qed.

Lemma always_defer (Q : event -> Prop) e (m : M A) :
  Q e -> always Q m -> always Q (defer e m).
Proof.
  intros Hq Hm c h ev. unfold defer; simpl. rewrite in_app_iff.
  intros [Hin|[<-|[]]]; [now apply Hm in Hin|exact Hq].
Qed.

Lemma never_ret P (a : A) : never P (ret a).
Proof. apply always_ret. Qed.

Lemma never_panic P msg : never P (@panic A msg).
Proof. apply always_panic. Qed.

Lemma never_emit (P : event -> Prop) e : ~ P e -> never P (emit e).
Proof. exact (always_emit (fun ev => ~ P ev) e). Qed.

Lemma never_get_client P : never P get_client.
Proof. apply always_get_client. Qed.

Lemma never_get_history P : never P get_history.
Proof. apply always_get_history. Qed.

Lemma never_bind P (m : M A) (k : A -> M B) :
  never P m -> (forall a, never P (k a)) -> never P (bind m k).
Proof. apply always_bind. Qed.

Lemma never_defer (P : event -> Prop) e (m : M A) :
  ~ P e -> never P m -> never P (defer e m).
Proof. exact (always_defer (fun ev => ~ P ev) e m). Qed.

End Closure.

Section Facts.

Context (E : Env).

Lemma select_Done_preserves {R} ctx (f : error -> R) (m : M R) :
  preserves m -> preserves (select_Done E ctx f m).
Proof.
  intros Hm. unfold select_Done.
  apply preserves_bind; [apply preserves_get_history|intros h0].
  destruct (ctx_Err E ctx h0).
  - apply preserves_bind; [apply preserves_emit|intros; apply preserves_ret].
  - exact Hm.
Qed.

Lemma select_Done_never {R} (P : event -> Prop) ctx (f : error -> R) (m : M R) :
  (forall e, ~ P (EvCtxDone ctx e)) -> never P m ->
  never P (select_Done E ctx f m).
Proof.
  intros Hn Hm. unfold select_Done.
  apply never_bind; [apply never_get_history|intros h0].
  destruct (ctx_Err E ctx h0).
  - apply never_bind; [apply never_emit, Hn|intros; apply never_ret].
  - exact Hm.
Qed.

End Facts.

(** ** Proof automation: a walk down the shape of a method *)

Create HintDb irys.

#[export] Hint Extern 1 (~ is_funding _) => (intros [? ?]; discriminate) : irys.
#[export] Hint Extern 1 (~ is_request _) => (intros [? ?]; discriminate) : irys.
#[export] Hint Resolve always_ret always_panic always_emit always_get_client
  always_get_history : irys.
#[export] Hint Resolve preserves_ret preserves_panic preserves_emit
  preserves_get_client preserves_get_history : irys.
#[export] Hint Resolve never_ret never_panic never_emit never_get_client
  never_get_history : irys.

(** A case distinction on what the goal (not a hypothesis) branches on. *)
Ltac case_goal :=
  match goal with
  | |- context [match ?x with _ => _ end] => destruct x eqn:?
  end.

Ltac preserves_walk :=
  repeat (intros;
          first [ solve [eauto 3 with irys]
                | apply preserves_bind
                | apply preserves_defer
                | apply select_Done_preserves
                | case_goal ]).

Ltac never_walk :=
  repeat (intros;
          first [ solve [eauto 3 with irys]
                | apply never_bind
                | apply never_defer
                | apply select_Done_never
                | case_goal ]).

Section Methods.

Context (E : Env).

(** *** The client object is left alone *)

Lemma Do_preserves req : preserves (Do E req).
Proof. unfold Do. preserves_walk. Qed.

Lemma debugMsg_preserves msg : preserves (debugMsg msg).
Proof. unfold debugMsg. preserves_walk. Qed.

Lemma createTx_preserves ctx amount : preserves (createTx E ctx amount).
Proof. unfold createTx. preserves_walk. Qed.

#[local] Hint Resolve Do_preserves debugMsg_preserves createTx_preserves : irys.

Lemma GetPrice_preserves ctx n : preserves (GetPrice E ctx n).
Proof. unfold GetPrice. preserves_walk. Qed.

Lemma GetBalance_preserves ctx : preserves (GetBalance E ctx).
Proof. unfold GetBalance. preserves_walk. Qed.

Lemma TopUpBalance_preserves ctx amount : preserves (TopUpBalance E ctx amount).
Proof. unfold TopUpBalance. preserves_walk. Qed.

Lemma Download_preserves ctx txId : preserves (Download E ctx txId).
Proof. unfold Download. preserves_walk. Qed.

Lemma GetMetaData_preserves ctx txId : preserves (GetMetaData E ctx txId).
Proof. unfold GetMetaData. preserves_walk. Qed.

Lemma GetReceipt_preserves ctx txId : preserves (GetReceipt E ctx txId).
Proof. unfold GetReceipt. preserves_walk. Qed.

Lemma upload_preserves ctx url file tags : preserves (upload E ctx url file tags).
Proof. unfold upload. preserves_walk. Qed.

#[local] Hint Resolve GetPrice_preserves GetBalance_preserves
  TopUpBalance_preserves upload_preserves : irys.

Lemma BasicUpload_preserves ctx file tags : preserves (BasicUpload E ctx file tags).
Proof. unfold BasicUpload. preserves_walk. Qed.

Lemma Upload_preserves ctx file tags : preserves (Upload E ctx file tags).
Proof. unfold Upload. preserves_walk. Qed.

Lemma Close_preserves : preserves Close.
Proof. unfold Close. preserves_walk. Qed.

Lemma send_chunks_preserves sid cs : preserves (send_chunks E sid cs).
Proof.
  induction cs as [|[off d] rest IH]; simpl; [apply preserves_ret|].
  preserves_walk.
Qed.

#[local] Hint Resolve send_chunks_preserves : irys.

Lemma ChunkUpload_preserves ctx file chunkId tags :
  preserves (ChunkUpload E ctx file chunkId tags).
Proof. unfold ChunkUpload. preserves_walk. Qed.

End Methods.

Section Interface.

Context (E : Env).

Lemma returning_preserves {A} (inj : A -> value) (m : M (A * option error)) :
  preserves m -> preserves (returning inj m).
Proof. intros Hm. unfold returning. preserves_walk. Qed.

(** C8. No operation of the interface, [Close] included, changes a field
    of the client: whatever the environment answers and however the
    operation ends (a value, an error, a panic), the client object after
    the call is the client object before it. *)
Theorem client_fields_invariant :
  forall (op : call) (c : Client) (h : history),
    client_after (invoke E op c h) = c.
Proof.
  intros op. change (preserves (invoke E op)).
  destruct op; simpl;
    try (apply returning_preserves;
         first [ apply GetPrice_preserves | apply BasicUpload_preserves
               | apply Upload_preserves | apply ChunkUpload_preserves
               | apply Download_preserves | apply GetMetaData_preserves
               | apply GetBalance_preserves | apply GetReceipt_preserves ]).
  - apply preserves_bind; [apply TopUpBalance_preserves|intros; apply preserves_ret].
  - apply preserves_bind; [apply Close_preserves|intros; apply preserves_ret].
Qed.

End Interface.

(** ** Running a sequence step by step *)

Section Steps.

Context {A B : Type} (m : M A) (k : A -> M B) (c : Client) (h : history).

Lemma after_bind :
  after (bind m k) c h =
  match outcome (m c h) with
  | Ret a => after (k a) (client_after (m c h)) (after m c h)
  | Panic _ => after m c h
  end.
Proof.
  unfold after. rewrite emitted_bind.
  destruct (outcome (m c h)).
  - now rewrite rev_app_distr, app_assoc.
  - now rewrite app_nil_r.
Qed.

Section Returned.

Context (a : A) (Ha : outcome (m c h) = Ret a) (Hc : client_after (m c h) = c).

Lemma outcome_step : outcome (bind m k c h) = outcome (k a c (after m c h)).
Proof using Ha Hc. rewrite outcome_bind, Ha, Hc. reflexivity. Qed.

Lemma emitted_step :
  emitted (bind m k c h) = emitted (m c h) ++ emitted (k a c (after m c h)).
Proof using Ha Hc. rewrite emitted_bind, Ha, Hc. reflexivity. Qed.

Lemma after_step : after (bind m k) c h = after (k a) c (after m c h).
Proof using Ha Hc. rewrite after_bind, Ha, Hc. reflexivity. Qed.

End Returned.

End Steps.

Lemma bind_run {A B} (m : M A) (k : A -> M B) c h a :
  outcome (m c h) = Ret a ->
  bind m k c h =
  graft (emitted (m c h)) (k a (client_after (m c h)) (after m c h)).
Proof. intros Ha. unfold bind, graft, after. now rewrite Ha. Qed.

Lemma bind_step {A B} (m : M A) (k : A -> M B) c h a :
  outcome (m c h) = Ret a -> client_after (m c h) = c ->
  bind m k c h = graft (emitted (m c h)) (k a c (after m c h)).
Proof. intros Ha Hc. unfold bind, graft, after. now rewrite Ha, Hc. Qed.

Lemma bind_stop {A B} (m : M A) (k : A -> M B) c h msg :
  outcome (m c h) = Panic msg ->
  bind m k c h = MkRes (Panic msg) (client_after (m c h)) (emitted (m c h)).
Proof. intros Ha. unfold bind. now rewrite Ha. Qed.

Lemma bind_assoc {A B C} (m : M A) (k1 : A -> M B) (k2 : B -> M C) c h :
  bind (bind m k1) k2 c h = bind m (fun a => bind (k1 a) k2) c h.
Proof.
  unfold bind. destruct (outcome (m c h)); simpl; [|reflexivity].
  rewrite rev_app_distr, <- !app_assoc.
  destruct (outcome (k1 a _ _)); simpl; [|reflexivity].
  now rewrite <- !app_assoc.
Qed.

Lemma outcome_graft {A} (pre : list event) (r : Res A) :
  outcome (graft pre r) = outcome r.
Proof. reflexivity. Qed.

Lemma client_after_graft {A} (pre : list event) (r : Res A) :
  client_after (graft pre r) = client_after r.
Proof. reflexivity. Qed.

Lemma emitted_graft {A} (pre : list event) (r : Res A) :
  emitted (graft pre r) = pre ++ emitted r.
Proof. reflexivity. Qed.

Lemma after_graft {A} (pre : list event) (r : Res A) h :
  rev (emitted (graft pre r)) ++ h = rev (emitted r) ++ rev pre ++ h.
Proof. simpl. now rewrite rev_app_distr, app_assoc. Qed.

Lemma funding_txs_app (l1 l2 : list event) :
  funding_txs (l1 ++ l2) = funding_txs l1 ++ funding_txs l2.
Proof. apply flat_map_app. Qed.

Lemma requests_app (l1 l2 : list event) :
  requests (l1 ++ l2) = requests l1 ++ requests l2.
Proof. apply flat_map_app. Qed.

Lemma funding_txs_none (evs : list event) :
  (forall ev, In ev evs -> ~ is_funding ev) -> funding_txs evs = [].
Proof.
  induction evs as [|ev evs IH]; intros Hn; [reflexivity|].
  simpl. rewrite IH by (intros; apply Hn; now right).
  destruct ev; try reflexivity.
  destruct (Hn (EvCreateTx amount)); [now left|now exists amount].
Qed.

Lemma never_funding_txs {A} (m : M A) c h :
  never is_funding m -> funding_txs (emitted (m c h)) = [].
Proof. intros Hm. apply funding_txs_none. intros ev. apply Hm. Qed.

Section Funding.

Context (E : Env).

Lemma Do_unfunded req : never is_funding (Do E req).
Proof. unfold Do. never_walk. Qed.

Lemma debugMsg_unfunded msg : never is_funding (debugMsg msg).
Proof. unfold debugMsg. never_walk. Qed.

#[local] Hint Resolve Do_unfunded debugMsg_unfunded : irys.

Lemma GetPrice_unfunded ctx n : never is_funding (GetPrice E ctx n).
Proof. unfold GetPrice. never_walk. Qed.

Lemma GetBalance_unfunded ctx : never is_funding (GetBalance E ctx).
Proof. unfold GetBalance. never_walk. Qed.

Lemma upload_unfunded ctx url file tags :
  never is_funding (upload E ctx url file tags).
Proof. unfold upload. never_walk. Qed.

Lemma Upload_unfunded ctx file tags : never is_funding (Upload E ctx file tags).
Proof. unfold Upload. apply never_bind; [apply never_get_client|]. intros. apply upload_unfunded. Qed.

(** A top-up issues one funding transaction, of the amount it was given. *)
Lemma TopUpBalance_funding ctx amount c h :
  funding_txs (emitted (TopUpBalance E ctx amount c h)) = [amount].
Proof.
  unfold TopUpBalance.
  rewrite (emitted_step _ _ _ _ c) by reflexivity.
  rewrite (emitted_step _ _ _ _ (createTx_result E c h ctx amount)) by reflexivity.
  rewrite !funding_txs_app. simpl funding_txs at 1 2. simpl app.
  f_equal. apply never_funding_txs. never_walk.
Qed.

End Funding.

Section Funded_upload.

Context (E : Env).

Lemma debugMsg_returns msg c h :
  well_formed c -> outcome (debugMsg msg c h) = Ret tt.
Proof.
  intros Hwf. unfold debugMsg. rewrite (outcome_step _ _ _ _ c) by reflexivity.
  destruct (debug c) eqn:Hd; [|reflexivity].
  destruct (logging c) eqn:Hl; [reflexivity|]. now destruct Hwf.
Qed.

Lemma Cmp_lt (b p : Z) :
  (match Z.compare b p with Lt => -1 | Eq => 0 | Gt => 1 end <? 0) = (b <? p).
Proof. unfold Z.ltb at 2. now destruct (Z.compare b p). Qed.


(** C1. [BasicUpload] first obtains the price of the payload's byte
    length, then the balance; when these are [p] and [b], it issues a
    funding transaction exactly when [b < p]: then exactly one, of amount
    [p] (not [p - b]), and the single-shot [upload] runs only after the
    top-up has returned without error; when [p <= b] no funding
    transaction is issued and [upload] runs directly. *)
Theorem BasicUpload_funds_iff_short :
  forall (ctx : Context) (file : bytes) (tags : list Tag)
         (c : Client) (h : history) (p b : Z),
    let n := Z.of_nat (length file) in
    let url := _uploadPath (network c) (GetName (currency c)) in
    let h1 := after (debugMsg ("[BasicUpload] get price " +:+ BigInt_String (Some p))) c
                (after (GetPrice E ctx n) c h) in
    let h2 := after (debugMsg ("[BasicUpload] get balance " +:+ BigInt_String (Some b))) c
                (after (GetBalance E ctx) c h1) in
    let r := BasicUpload E ctx file tags c h in
    well_formed c ->
    outcome (GetPrice E ctx n c h) = Ret (Some p, None) ->
    outcome (GetBalance E ctx c h1) = Ret (Some b, None) ->
    funding_txs (emitted r) = (if b <? p then [Some p] else []) /\
    if b <? p then
      let t := TopUpBalance E ctx (Some p) in
      match outcome (t c h2) with
      | Ret None =>
          let h3 := after (debugMsg "[BasicUpload] topUp balance") c (after t c h2) in
          after (BasicUpload E ctx file tags) c h = after (upload E ctx url file tags) c h3 /\
          outcome r = outcome (upload E ctx url file tags c h3)
      | Ret (Some err) =>
          after (BasicUpload E ctx file tags) c h = after t c h2 /\
          outcome r = Ret (zero_Transaction, Some err)
      | Panic msg =>
          after (BasicUpload E ctx file tags) c h = after t c h2 /\
          outcome r = Panic msg
      end
    else
      after (BasicUpload E ctx file tags) c h = after (upload E ctx url file tags) c h2 /\
      outcome r = outcome (upload E ctx url file tags c h2).
Proof.
  intros ctx file tags c h p b n url h1 h2 r Hwf Hp Hb.
  assert (Hr : r = BasicUpload E ctx file tags c h) by reflexivity.
  unfold BasicUpload in Hr.
  rewrite (bind_step _ _ _ _ c) in Hr by reflexivity.
  rewrite (bind_step _ _ _ _ _ Hp) in Hr by apply GetPrice_preserves.
  rewrite (bind_step _ _ _ _ tt) in Hr
    by (apply debugMsg_returns, Hwf || apply debugMsg_preserves).
  rewrite (bind_step _ _ _ _ _ Hb) in Hr by apply GetBalance_preserves.
  rewrite (bind_step _ _ _ _ tt) in Hr
    by (apply debugMsg_returns, Hwf || apply debugMsg_preserves).
  change (BigInt_Cmp (Some b) (Some p))
    with (Ret (A := Z) (match Z.compare b p with Lt => -1 | Eq => 0 | Gt => 1 end)) in Hr.
  cbv iota beta in Hr. rewrite Cmp_lt in Hr.
  fold h1 h2 in Hr.
  assert (Hq : forall x, funding_txs
             (emitted (get_client c h) ++ emitted (GetPrice E ctx n c h) ++
              emitted (debugMsg ("[BasicUpload] get price " +:+ BigInt_String (Some p)) c
                         (after (GetPrice E ctx n) c h)) ++
              emitted (GetBalance E ctx c h1) ++
              emitted (debugMsg ("[BasicUpload] get balance " +:+ BigInt_String (Some b)) c
                         (after (GetBalance E ctx) c h1)) ++ x) = funding_txs x).
  { intros x. rewrite !funding_txs_app.
    rewrite (never_funding_txs (GetPrice E ctx n)) by apply GetPrice_unfunded.
    rewrite (never_funding_txs (GetBalance E ctx)) by apply GetBalance_unfunded.
    rewrite !(never_funding_txs (debugMsg _)) by apply debugMsg_unfunded.
    reflexivity. }
  change (after (BasicUpload E ctx file tags) c h) with (rev (emitted r) ++ h).
  destruct (b <? p) eqn:Hlt.
  - rewrite bind_assoc in Hr. cbv zeta.
    destruct (outcome (TopUpBalance E ctx (Some p) c h2)) as [[err|]|msg] eqn:Ht.
    + rewrite (bind_step _ _ _ _ _ Ht) in Hr by apply TopUpBalance_preserves.
      rewrite (bind_step _ _ _ _ (Some err)) in Hr by reflexivity.
      rewrite Hr, !outcome_graft, !after_graft, !emitted_graft.
      cbn [emitted outcome client_after].
      rewrite Hq, !funding_txs_app, TopUpBalance_funding.
      repeat split.
    + rewrite (bind_step _ _ _ _ _ Ht) in Hr by apply TopUpBalance_preserves.
      rewrite bind_assoc in Hr.
      rewrite (bind_step _ _ _ _ tt) in Hr
        by (apply debugMsg_returns, Hwf || apply debugMsg_preserves).
      rewrite (bind_step _ _ _ _ None) in Hr by reflexivity.
      rewrite Hr, !outcome_graft, !after_graft, !emitted_graft.
      cbn [emitted outcome client_after].
      rewrite Hq, !funding_txs_app, TopUpBalance_funding.
      rewrite (never_funding_txs (debugMsg _)) by apply debugMsg_unfunded.
      rewrite (never_funding_txs (upload _ _ _ _ _)) by apply upload_unfunded.
      repeat split.
    + rewrite (bind_stop _ _ _ _ _ Ht) in Hr.
      rewrite Hr, !outcome_graft, !after_graft, !emitted_graft.
      cbn [emitted outcome client_after].
      rewrite Hq, TopUpBalance_funding.
      repeat split.
  - rewrite (bind_step _ _ _ _ None) in Hr by reflexivity.
    rewrite Hr, !outcome_graft, !after_graft, !emitted_graft.
      cbn [emitted outcome client_after].
    rewrite Hq, !funding_txs_app.
    rewrite (never_funding_txs (upload _ _ _ _ _)) by apply upload_unfunded.
    repeat split.
Qed.
End Funded_upload.

(** The theorem at work: a balance of 0 against a price of 50. *)
Lemma BasicUpload_funds_iff_short_witness :
  funding_txs
    (emitted (BasicUpload (Sim.env Sim.short) (Ctx 1) Sim.payload []
                (Sim.client_of Sim.matic true) []))
  = [Some 50].
Proof.
  assert (Hwf : well_formed (Sim.client_of Sim.matic true))
    by (intros _; discriminate).
  exact (proj1 (BasicUpload_funds_iff_short (Sim.env Sim.short) (Ctx 1)
                  Sim.payload [] (Sim.client_of Sim.matic true) [] 50 0
                  Hwf eq_refl eq_refl)).
Defined.

Section Running.

Context (E : Env).

Lemma Do_run req c h :
  Do E req c h = MkRes (Ret (client_Do E (client c) h req)) c [EvDo req].
Proof. reflexivity. Qed.

Lemma debugMsg_run msg c h :
  debugMsg msg c h =
  if debug c then
    match logging c with
    | Some l => MkRes (Ret tt) c [EvDebug l msg]
    | None => MkRes (Panic "nil pointer dereference: c.logging") c []
    end
  else MkRes (Ret tt) c [].
Proof.
  unfold debugMsg. rewrite (bind_step _ _ _ _ c) by reflexivity.
  destruct (debug c); [destruct (logging c)|]; reflexivity.
Qed.

Lemma select_Done_run {R} ctx (f : error -> R) (m : M R) c h :
  select_Done E ctx f m c h =
  match ctx_Err E ctx h with
  | Some err => MkRes (Ret (f err)) c [EvCtxDone ctx err]
  | None => m c h
  end.
Proof.
  unfold select_Done. rewrite (bind_step _ _ _ _ h) by reflexivity.
  destruct (ctx_Err E ctx h); [reflexivity|].
  unfold graft, after. simpl. now destruct (m c h).
Qed.

Lemma defer_run {A} e (m : M A) c h :
  defer e m c h =
  MkRes (outcome (m c h)) (client_after (m c h)) (emitted (m c h) ++ [e]).
Proof. reflexivity. Qed.

Lemma debugMsg_cases msg c h :
  (exists d, debugMsg msg c h = MkRes (Ret tt) c d /\ requests d = []) \/
  (exists p, debugMsg msg c h = MkRes (Panic p) c [] /\ ~ well_formed c).
Proof.
  rewrite debugMsg_run. unfold well_formed.
  destruct (debug c); [destruct (logging c) as [l|]|].
  - left. now exists [EvDebug l msg].
  - right. eexists. split; [reflexivity|]. intros Hwf. now apply Hwf.
  - left. now exists [].
Qed.

Lemma requests_none (evs : list event) :
  (forall ev, In ev evs -> ~ is_request ev) -> requests evs = [].
Proof.
  induction evs as [|ev evs IH]; intros Hn; [reflexivity|].
  simpl. rewrite IH by (intros; apply Hn; now right).
  destruct ev; try reflexivity.
  destruct (Hn (EvDo req)); [now left|now exists req].
Qed.

Lemma never_requests {A} (m : M A) c h :
  never is_request m -> requests (emitted (m c h)) = [].
Proof. intros Hm. apply requests_none. intros ev. apply Hm. Qed.

End Running.

(** ** A context that is done when the response arrives *)

Section Replay.

Context (E : Env) (ctx : Context) (rc : RetryClient).

Lemma done_at_response_app (l1 l2 : list event) h :
  done_at_response E ctx rc h (l1 ++ l2) =
  match done_at_response E ctx rc h l1 with
  | Some e => Some e
  | None => done_at_response E ctx rc (rev l1 ++ h) l2
  end.
Proof.
  revert h. induction l1 as [|ev l1 IH]; intros h; [reflexivity|].
  cbn [app rev done_at_response]. rewrite <- app_assoc. cbn [app].
  destruct ev; try apply IH.
  destruct (client_Do E rc h req); [|apply IH].
  destruct (ctx_Err E ctx (EvDo req :: h)); [reflexivity|apply IH].
Qed.

Lemma done_at_response_none (evs : list event) h :
  (forall ev, In ev evs -> ~ is_request ev) ->
  done_at_response E ctx rc h evs = None.
Proof.
  revert h. induction evs as [|ev evs IH]; intros h Hn; [reflexivity|].
  cbn [done_at_response].
  destruct ev; try (apply IH; intros; apply Hn; now right).
  destruct (Hn (EvDo req)); [now left|now exists req].
Qed.

(** Among obliging answers, a context that is done whenever a request has
    gone out is found done at the first request of the trace. *)
Lemma done_at_response_first (evs : list event) h e :
  (forall rc h req, exists resp, client_Do E rc h req = inl resp) ->
  (forall req h', ctx_Err E ctx (EvDo req :: h') = Some e) ->
  requests evs <> [] ->
  done_at_response E ctx rc h evs = Some e.
Proof.
  intros HDo Hctx. revert h.
  induction evs as [|ev evs IH]; intros h Hq; [now destruct Hq|].
  cbn [done_at_response].
  destruct ev; try (apply IH; exact Hq).
  destruct (HDo rc h req) as [resp ->]. now rewrite Hctx.
Qed.

End Replay.

Section Heeding.

Context (E : Env) (ctx : Context) {A B : Type}.

Lemma heeds_of_never (f : error -> A) (m : M A) :
  never is_request m -> heeds E ctx f m.
Proof.
  intros Hm c h e Hd.
  rewrite done_at_response_none in Hd; [discriminate|]. intros ev. apply Hm.
Qed.

Lemma heeds_defer (f : error -> A) e (m : M A) :
  ~ is_request e -> heeds E ctx f m -> heeds E ctx f (defer e m).
Proof.
  intros Hn Hm c h e0. rewrite defer_run. cbn [emitted outcome].
  rewrite done_at_response_app.
  destruct (done_at_response E ctx (client c) h (emitted (m c h))) eqn:Hd.
  - intros [= <-]. now apply Hm.
  - rewrite done_at_response_none; [discriminate|].
    intros ev [<-|[]]. exact Hn.
Qed.

(** A prefix that sends nothing does not disturb the rest. *)
Lemma heeds_bind (f : error -> B) (m : M A) (k : A -> M B) :
  never is_request m -> preserves m -> (forall a, heeds E ctx f (k a)) ->
  heeds E ctx f (bind m k).
Proof.
  intros Hm Hp Hk c h e. rewrite emitted_bind, outcome_bind, Hp.
  rewrite done_at_response_app.
  rewrite done_at_response_none by (intros ev; apply Hm).
  destruct (outcome (m c h)); [apply Hk|discriminate].
Qed.

(** A prefix that may itself return early: the rest hands its result on. *)
Lemma heeds_chain (f : error -> A) (g : error -> B)
    (m : M A) (k : A -> M B) :
  heeds E ctx f m -> preserves m ->
  (forall e c h, k (f e) c h = ret (g e) c h) ->
  (forall a, heeds E ctx g (k a)) ->
  heeds E ctx g (bind m k).
Proof.
  intros Hm Hp Hf Hk c h e. rewrite emitted_bind, outcome_bind, Hp.
  rewrite done_at_response_app.
  destruct (done_at_response E ctx (client c) h (emitted (m c h))) eqn:Hd.
  - intros [= <-]. rewrite (Hm _ _ _ Hd). now rewrite Hf.
  - destruct (outcome (m c h)); [apply Hk|discriminate].
Qed.

(** The request itself: what follows a response must start with the
    [select] on [ctx], and send nothing more. *)
Lemma heeds_Do (f : error -> B) req (k : Response + error -> M B) :
  (forall r, never is_request (k r)) ->
  (forall resp c h e,
      ctx_Err E ctx h = Some e -> outcome (k (inl resp) c h) = Ret (f e)) ->
  heeds E ctx f (bind (Do E req) k).
Proof.
  intros Hn Hs c h e.
  rewrite (bind_run _ _ _ _ _ (f_equal outcome (Do_run E req c h))).
  unfold after. rewrite Do_run. cbn [emitted client_after rev app].
  rewrite outcome_graft, emitted_graft. cbn [app done_at_response].
  destruct (client_Do E (client c) h req) as [resp|err].
  - destruct (ctx_Err E ctx (EvDo req :: h)) eqn:Hd.
    + intros [= <-]. now apply Hs.
    + intros Hr. rewrite done_at_response_none in Hr; [discriminate|].
      intros ev. apply Hn.
  - intros Hr. rewrite done_at_response_none in Hr; [discriminate|].
    intros ev. apply Hn.
Qed.

End Heeding.

(** What a [select] on a done context returns. *)
Ltac select_done :=
  intros; rewrite ?defer_run; cbn [outcome]; rewrite select_Done_run;
  match goal with
  | H : ctx_Err _ _ _ = Some _ |- _ => rewrite H
  end; reflexivity.

Ltac heeds_walk :=
  repeat (intros;
          first [ solve [apply heeds_of_never; never_walk]
                | apply heeds_Do;
                  [ solve [never_walk]
                  | solve [select_done] ]
                | apply heeds_bind; [solve [never_walk]|solve [preserves_walk]|]
                | case_goal ]).

Ltac heeds_chain_walk :=
  repeat (intros;
          first [ solve [eauto 3 with irys]
                | solve [apply heeds_of_never; never_walk]
                | apply heeds_bind; [solve [never_walk]|solve [preserves_walk]|]
                | eapply heeds_chain;
                  [ solve [eauto 3 with irys] | solve [preserves_walk]
                  | intros; reflexivity |]
                | eapply heeds_chain;
                  [ solve [heeds_chain_walk] | solve [preserves_walk]
                  | intros; reflexivity |]
                | case_goal ]).

Section Cancellation.

Context (E : Env).

#[local] Hint Resolve Do_preserves debugMsg_preserves createTx_preserves : irys.

Lemma debugMsg_sends_nothing msg : never is_request (debugMsg msg).
Proof. unfold debugMsg. never_walk. Qed.

Lemma createTx_sends_nothing ctx amount :
  never is_request (createTx E ctx amount).
Proof. unfold createTx. never_walk. Qed.

#[local] Hint Resolve debugMsg_sends_nothing createTx_sends_nothing : irys.

Lemma GetPrice_heeds ctx n :
  heeds E ctx (fun err => (None, Some err)) (GetPrice E ctx n).
Proof. unfold GetPrice. heeds_walk. Qed.

Lemma GetBalance_heeds ctx :
  heeds E ctx (fun err => (None, Some err)) (GetBalance E ctx).
Proof. unfold GetBalance. heeds_walk. Qed.

Lemma TopUpBalance_heeds ctx amount :
  heeds E ctx (fun err => Some err) (TopUpBalance E ctx amount).
Proof. unfold TopUpBalance. heeds_walk. Qed.

Lemma Download_heeds ctx txId :
  heeds E ctx (fun err => (None, Some err)) (Download E ctx txId).
Proof. unfold Download. heeds_walk. Qed.

Lemma GetMetaData_heeds ctx txId :
  heeds E ctx (fun err => (zero_Transaction, Some err)) (GetMetaData E ctx txId).
Proof. unfold GetMetaData. heeds_walk. Qed.

Lemma GetReceipt_heeds ctx txId :
  heeds E ctx (fun err => (zero_Receipt, Some err)) (GetReceipt E ctx txId).
Proof. unfold GetReceipt. heeds_walk. Qed.

Lemma upload_heeds ctx url file tags :
  heeds E ctx (fun err => (zero_Transaction, Some err)) (upload E ctx url file tags).
Proof. unfold upload. heeds_walk. Qed.

Lemma Upload_heeds ctx file tags :
  heeds E ctx (fun err => (zero_Transaction, Some err)) (Upload E ctx file tags).
Proof.
  unfold Upload. apply heeds_bind; [never_walk|preserves_walk|].
  intros c. apply upload_heeds.
Qed.

#[local] Hint Resolve GetPrice_heeds GetBalance_heeds TopUpBalance_heeds
  upload_heeds : irys.
#[local] Hint Resolve GetPrice_preserves GetBalance_preserves
  TopUpBalance_preserves upload_preserves : irys.

Lemma BasicUpload_heeds ctx file tags :
  heeds E ctx (fun err => (zero_Transaction, Some err))
    (BasicUpload E ctx file tags).
Proof. unfold BasicUpload. heeds_chain_walk. Qed.

Lemma returning_heeds {A} ctx (inj : A -> value) (z : A)
    (m : M (A * option error)) :
  heeds E ctx (fun err => (z, Some err)) m -> preserves m ->
  heeds E ctx (fun err => (inj z, Some err)) (returning inj m).
Proof.
  intros Hm Hp. unfold returning.
  eapply heeds_chain; [exact Hm|exact Hp|reflexivity|].
  intros a. apply heeds_of_never, never_ret.
Qed.

Lemma invoke_heeds op ctx :
  selects_on op = Some ctx ->
  heeds E ctx (fun err => (zero_value op, Some err)) (invoke E op).
Proof.
  intros Hsel.
  destruct op; simpl in *; try discriminate; injection Hsel as ->;
    try (apply returning_heeds;
         [ first [ apply GetPrice_heeds | apply BasicUpload_heeds
                 | apply Upload_heeds | apply Download_heeds
                 | apply GetMetaData_heeds | apply GetBalance_heeds
                 | apply GetReceipt_heeds ]
         | first [ apply GetPrice_preserves | apply BasicUpload_preserves
                 | apply Upload_preserves | apply Download_preserves
                 | apply GetMetaData_preserves | apply GetBalance_preserves
                 | apply GetReceipt_preserves ] ]).
  eapply heeds_chain;
    [apply TopUpBalance_heeds|apply TopUpBalance_preserves|reflexivity|].
  intros a. apply heeds_of_never, never_ret.
Qed.

(** *** Each operation gets as far as its request *)

Lemma asks_first {A B} (m : M A) (k : A -> M B) c h :
  requests (emitted (m c h)) <> [] ->
  requests (emitted (bind m k c h)) <> [].
Proof.
  intros Hm. rewrite emitted_bind, requests_app.
  intros Hnil. now apply app_eq_nil in Hnil.
Qed.

Lemma asks_later {A B} (m : M A) (k : A -> M B) c h a :
  outcome (m c h) = Ret a -> client_after (m c h) = c ->
  (forall h', requests (emitted (k a c h')) <> []) ->
  requests (emitted (bind m k c h)) <> [].
Proof.
  intros Ha Hc Hk. rewrite emitted_bind, requests_app, Ha, Hc.
  intros Hnil. apply app_eq_nil in Hnil. destruct Hnil as [_ Hnil].
  now apply Hk in Hnil.
Qed.

Lemma Do_asks {B} req (k : Response + error -> M B) c h :
  requests (emitted (bind (Do E req) k c h)) <> [].
Proof. apply asks_first. rewrite Do_run. discriminate. Qed.

Section Asking.

Context (Hob : obliging E).

Lemma GetPrice_asks ctx n c h :
  requests (emitted (GetPrice E ctx n c h)) <> [].
Proof using Hob.
  destruct Hob as (Hq & _).
  unfold GetPrice. apply (asks_later _ _ c h c); [reflexivity..|intros h1].
  unfold NewRequestWithContext. rewrite Hq. apply Do_asks.
Qed.

Lemma GetBalance_asks ctx c h :
  GetPublicKey (currency c) <> None ->
  requests (emitted (GetBalance E ctx c h)) <> [].
Proof using Hob.
  destruct Hob as (Hq & _). intros Hk.
  unfold GetBalance. apply (asks_later _ _ c h c); [reflexivity..|intros h1].
  destruct (GetPublicKey (currency c)); [|now destruct Hk].
  unfold NewRequestWithContext. rewrite Hq. apply Do_asks.
Qed.

Lemma TopUpBalance_asks ctx amount c h :
  requests (emitted (TopUpBalance E ctx amount c h)) <> [].
Proof using Hob.
  destruct Hob as (Hq & _ & _ & Htx & Hm).
  unfold TopUpBalance. apply (asks_later _ _ c h c); [reflexivity..|intros h1].
  apply (asks_later _ _ c h1 (createTx_result E c h1 ctx amount));
    [reflexivity..|intros h2].
  specialize (Htx c h1 ctx amount).
  destruct (createTx_result E c h1 ctx amount) as [hash terr].
  cbn [snd] in Htx. subst terr.
  specialize (Hm {| TxId := hash |}).
  destruct (json_Marshal E {| TxId := hash |}) as [b merr].
  cbn [snd] in Hm. subst merr.
  unfold NewRequestWithContext. rewrite Hq. apply Do_asks.
Qed.

Lemma Download_asks ctx txId c h :
  requests (emitted (Download E ctx txId c h)) <> [].
Proof using Hob.
  destruct Hob as (Hq & _).
  unfold Download, NewRequestWithContext. rewrite Hq. apply Do_asks.
Qed.

Lemma GetMetaData_asks ctx txId c h :
  requests (emitted (GetMetaData E ctx txId c h)) <> [].
Proof using Hob.
  destruct Hob as (Hq & _).
  unfold GetMetaData, NewRequestWithContext. rewrite Hq. apply Do_asks.
Qed.

Lemma GetReceipt_asks ctx txId c h :
  requests (emitted (GetReceipt E ctx txId c h)) <> [].
Proof using Hob.
  destruct Hob as (Hq & _).
  unfold GetReceipt. apply (asks_later _ _ c h c); [reflexivity..|intros h1].
  unfold NewRequestWithContext. rewrite Hq. apply Do_asks.
Qed.

Lemma upload_asks ctx url file tags c h :
  well_formed c ->
  requests (emitted (upload E ctx url file tags c h)) <> [].
Proof using Hob.
  destruct Hob as (Hq & _ & Hs & _). intros Hwf.
  unfold upload. apply (asks_later _ _ c h c); [reflexivity..|intros h1].
  specialize (Hs file (GetSinger (currency c)) false tags).
  destruct (signFile E file (GetSinger (currency c)) false tags) as [b serr].
  cbn [snd] in Hs. subst serr.
  unfold NewRequestWithContext. rewrite Hq.
  destruct (debugMsg_cases "[Upload] create upload request" c h1)
    as [(d & Hd & _)|(p & _ & Hn)]; [|now destruct Hn].
  apply (asks_later _ _ c h1 tt); [now rewrite Hd..|intros h2].
  apply Do_asks.
Qed.

Lemma Upload_asks ctx file tags c h :
  well_formed c ->
  requests (emitted (Upload E ctx file tags c h)) <> [].
Proof using Hob.
  intros Hwf. unfold Upload.
  apply (asks_later _ _ c h c); [reflexivity..|intros h1].
  now apply upload_asks.
Qed.

Lemma BasicUpload_asks ctx file tags c h :
  requests (emitted (BasicUpload E ctx file tags c h)) <> [].
Proof using Hob.
  unfold BasicUpload. apply (asks_later _ _ c h c); [reflexivity..|intros h1].
  apply asks_first, GetPrice_asks.
Qed.

Lemma invoke_asks op ctx c h :
  selects_on op = Some ctx ->
  well_formed c -> GetPublicKey (currency c) <> None ->
  requests (emitted (invoke E op c h)) <> [].
Proof using Hob.
  intros Hsel Hwf Hk.
  destruct op; simpl in *; try discriminate; apply asks_first.
  - apply GetPrice_asks.
  - apply BasicUpload_asks.
  - now apply Upload_asks.
  - apply Download_asks.
  - apply GetMetaData_asks.
  - now apply GetBalance_asks.
  - apply TopUpBalance_asks.
  - apply GetReceipt_asks.
Qed.

End Asking.

(** C7. For each of GetPrice, GetBalance, TopUpBalance, Download,
    GetMetaData, GetReceipt, BasicUpload and Upload: if the context is
    done when the response to a request of the operation has arrived
    ([ctx.Err()] reports an error at the [select] that examines the
    response), the operation returns the zero value of its result type
    together with an error, and that error is the one the context
    reported, not one of the transport or of the decoder.  And the
    operation does get there: when nothing but the context stands in the
    way and the context is done whenever a request has gone out, that is
    what the operation returns. *)
Theorem done_context_returns_its_error :
  forall (op : call) (ctx : Context) (c : Client) (h : history) (e : error),
    selects_on op = Some ctx ->
    (done_at_response E ctx (client c) h (emitted (invoke E op c h)) = Some e ->
     outcome (invoke E op c h) = Ret (zero_value op, Some e)) /\
    (obliging E -> well_formed c -> GetPublicKey (currency c) <> None ->
     (forall req h', ctx_Err E ctx (EvDo req :: h') = Some e) ->
     outcome (invoke E op c h) = Ret (zero_value op, Some e)).
Proof.
  intros op ctx c h e Hsel. split.
  - apply (invoke_heeds op ctx Hsel).
  - intros Hob Hwf Hk Hctx. apply (invoke_heeds op ctx Hsel).
    apply done_at_response_first; [apply Hob|exact Hctx|].
    now apply (invoke_asks Hob op ctx).
Qed.

End Cancellation.

(** The simulated node answers whatever it is asked. *)
Lemma Sim_env_obliging (cfg : Sim.config) : obliging (Sim.env cfg).
Proof.
  repeat split; intros; try reflexivity.
  cbn [client_Do Sim.env]. unfold Sim.Do, Sim.ok.
  repeat match goal with
         | |- context [if ?b then _ else _] => destruct b
         end; eexists; reflexivity.
Qed.

(** The theorem at work: a price query under a cancelled context. *)
Lemma done_context_returns_its_error_witness :
  outcome (invoke (Sim.env Sim.cancelled) (CallGetPrice (Ctx 1) 5)
             (Sim.client_of Sim.matic false) [])
  = Ret (VBigInt None, Some Canceled).
Proof.
  apply (done_context_returns_its_error (Sim.env Sim.cancelled)
           (CallGetPrice (Ctx 1) 5) (Ctx 1) (Sim.client_of Sim.matic false) []
           Canceled eq_refl).
  - apply Sim_env_obliging.
  - intros _. discriminate.
  - discriminate.
  - reflexivity.
Defined.

Section Single_shot.

Context (E : Env).


End Single_shot.


(** ** The balance endpoints *)

(** C2. The balance endpoints at a client whose currency is named
    ethereum: [GetBalance] and [TopUpBalance] address the path
    /account/balance/matic, while [GetPrice] on the same client addresses
    /price/ethereum. *)
Theorem balance_endpoints_name_matic :
  let c := Sim.client_of Sim.ethereum false in
  let E := Sim.env Sim.short in
  GetName (currency c) = "ethereum" /\
  map URL (requests (emitted (GetBalance E (Ctx 1) c [])))
    = ["https://node2.irys.xyz/account/balance/matic?address=0x33"] /\
  map URL (requests (emitted (TopUpBalance E (Ctx 1) (Some 50) c [])))
    = ["https://node2.irys.xyz/account/balance/matic"] /\
  map URL (requests (emitted (GetPrice E (Ctx 1) 5 c [])))
    = ["https://node2.irys.xyz/price/ethereum/5"].
Proof. vm_compute. repeat split. Qed.

(** ** Receipts *)

(** C3. A receipt query that succeeds and comes back with an edge list
    that is present and empty: [GetReceipt] indexes its first element and
    panics, where the claim has it return an empty receipt and no error. *)
Theorem GetReceipt_panics_on_empty_edges :
  outcome (GetReceipt (Sim.env (Sim.with_edges (Some []))) (Ctx 1) "tx-1"
             (Sim.client_of Sim.matic false) [])
  = Panic "index out of range [0] with length 0".
Proof. vm_compute. reflexivity. Qed.

(** C4. Two operations that end in a panic: [GetReceipt] on an empty
    edge list, and [GetBalance] on a currency whose public key is nil. *)
Theorem operations_can_panic :
  (exists msg,
     outcome (invoke (Sim.env (Sim.with_edges (Some [])))
                (CallGetReceipt (Ctx 1) "tx-1")
                (Sim.client_of Sim.matic false) []) = Panic msg) /\
  (exists msg,
     outcome (invoke (Sim.env Sim.funded) (CallGetBalance (Ctx 1))
                (Sim.client_of Sim.keyless false) []) = Panic msg).
Proof. split; eexists; vm_compute; reflexivity. Qed.

Section Receipt.

Context (E : Env).

(** The soft miss that the code does implement: a nil edge list. *)
Lemma GetReceipt_soft_miss ctx txId c h resp response :
  let url := _graphql (network c) in
  let req := Header_Add
               {| req_ctx := ctx; Method := "POST"; URL := url;
                  req_Body := Some (String.list_byte_of_string (receipt_query txId));
                  req_Header := [] |} "Content-Type" "application/json" in
  request_error E "POST" url = None ->
  client_Do E (client c) h req = inl resp ->
  ctx_Err E ctx (EvDo req :: h) = None ->
  statusCheck E resp = None ->
  decodeBody_ReceiptResponse E (Body resp) = (response, None) ->
  Edges (Transactions (Data response)) = None ->
  outcome (GetReceipt E ctx txId c h) = Ret (zero_Receipt, None).
Proof.
  intros url req Hq HDo Hctx Hst Hdec Hedges.
  unfold GetReceipt.
  rewrite (outcome_step _ _ _ _ c) by reflexivity.
  unfold NewRequestWithContext. fold url. rewrite Hq. fold req.
  rewrite (outcome_step _ _ _ _ (client_Do E (client c) h req)) by reflexivity.
  change (after (Do E req) c (after get_client c h)) with (EvDo req :: h).
  rewrite HDo. unfold defer. cbn [outcome].
  unfold select_Done. rewrite (outcome_step _ _ _ _ (EvDo req :: h)) by reflexivity.
  change (after get_history c (EvDo req :: h)) with (EvDo req :: h).
  rewrite Hctx, Hst, Hdec, Hedges. reflexivity.
Qed.

End Receipt.

(** ** Errors of the price query *)

Section Price.

Context (E : Env).

(** X23. When the node's answer to the price request is turned down by
    [statusCheck], [GetPrice] returns that error and a nil price; and any
    error [GetPrice] returns is the one of the request construction, of
    the transport, of the context, of [statusCheck] or of the decoder. *)
Theorem GetPrice_relays_errors :
  forall (ctx : Context) (n : Z) (c : Client) (h : history),
    let url := _pricePath (network c) (GetName (currency c)) n in
    let req := {| req_ctx := ctx; Method := "GET"; URL := url;
                  req_Body := None; req_Header := [] |} in
    let r := GetPrice E ctx n c h in
    (forall resp err,
        request_error E "GET" url = None ->
        client_Do E (client c) h req = inl resp ->
        ctx_Err E ctx (EvDo req :: h) = None ->
        statusCheck E resp = Some err ->
        outcome r = Ret (None, Some err)) /\
    (forall v err,
        outcome r = Ret (v, Some err) ->
        request_error E "GET" url = Some err \/
        client_Do E (client c) h req = inr err \/
        ctx_Err E ctx (EvDo req :: h) = Some err \/
        exists resp,
          client_Do E (client c) h req = inl resp /\
          (statusCheck E resp = Some err \/
           snd (decodeBody_BigInt E (Body resp)) = Some err)).
Proof.
  intros ctx n c h url req r.
  assert (Hr : r = GetPrice E ctx n c h) by reflexivity. clearbody r.
  unfold GetPrice in Hr.
  rewrite (bind_step _ _ _ _ c) in Hr by reflexivity.
  unfold NewRequestWithContext in Hr. fold url in Hr.
  destruct (request_error E "GET" url) as [rerr|] eqn:Hq.
  { rewrite Hr. split; [intros; discriminate|].
    intros v err [= _ <-]. now left. }
  fold req in Hr.
  rewrite (bind_step _ _ _ _ (client_Do E (client c) h req)) in Hr by reflexivity.
  change (after (Do E req) c (after get_client c h)) with (EvDo req :: h) in Hr.
  destruct (client_Do E (client c) h req) as [resp|derr] eqn:HDo.
  2: { rewrite Hr. split; [intros; discriminate|].
       intros v err [= _ <-]. right. now left. }
  rewrite defer_run, select_Done_run in Hr.
  destruct (ctx_Err E ctx (EvDo req :: h)) as [cerr|] eqn:Hctx.
  { rewrite Hr. split; [intros; discriminate|].
    intros v err [= _ <-]. right. right. now left. }
  destruct (statusCheck E resp) as [serr|] eqn:Hst.
  - rewrite Hr. split.
    + intros resp' err _ [= <-] _ Hst'. rewrite Hst in Hst'. now injection Hst' as ->.
    + intros v err [= _ <-]. right. right. right. exists resp. split; [reflexivity|now left].
  - rewrite Hr. split.
    + intros resp' err _ [= <-] _ Hst'. rewrite Hst in Hst'. discriminate.
    + intros v err Hv. right. right. right. exists resp. split; [reflexivity|right].
      cbn in Hv. injection Hv as Hv. now rewrite Hv.
Qed.

End Price.

(** The theorem at work: the node turns the price request down. *)
Lemma GetPrice_relays_errors_witness :
  outcome (GetPrice (Sim.env Sim.unknown_currency) (Ctx 1) 100
             (Sim.client_of Sim.matic false) [])
  = Ret (None, Some (ErrExternal "statusCheck" "400")).
Proof.
  exact (proj1 (GetPrice_relays_errors (Sim.env Sim.unknown_currency) (Ctx 1) 100
                  (Sim.client_of Sim.matic false) [])
           {| StatusCode := 400; Header := []; ContentLength := 0;
              Body := Sim.body_of "0" |}
           (ErrExternal "statusCheck" "400")
           eq_refl eq_refl eq_refl eq_refl).
Defined.

(** ** The chunked upload *)

Section Chunked.

Context (E : Env).

(** C9. A payload below the minimum or above the maximum size makes
    [ChunkUpload] return the SizeOutOfRange error at once: nothing is
    emitted, so nothing was transmitted. *)
Theorem ChunkUpload_size_out_of_range :
  forall (ctx : Context) (file : bytes) (chunkId : string) (tags : list Tag)
         (c : Client) (h : history),
    Z.of_nat (length file) < _minChunkSize \/
    _maxChunkSize < Z.of_nat (length file) ->
    ChunkUpload E ctx file chunkId tags c h
    = MkRes (Ret (zero_Transaction, Some ErrSizeOutOfRange)) c [].
Proof.
  intros ctx file chunkId tags c h Hsize. unfold ChunkUpload.
  replace ((Z.of_nat (length file) <? _minChunkSize)
           || (_maxChunkSize <? Z.of_nat (length file))) with true; [reflexivity|].
  symmetry. apply orb_true_iff. destruct Hsize; [left|right]; now apply Z.ltb_lt.
Qed.

End Chunked.

(** The theorem at work: five bytes are below the minimum. *)
Lemma ChunkUpload_size_out_of_range_witness :
  ChunkUpload (Sim.env Sim.funded) (Ctx 1) Sim.payload "" []
    (Sim.client_of Sim.matic false) []
  = MkRes (Ret (zero_Transaction, Some ErrSizeOutOfRange))
      (Sim.client_of Sim.matic false) [].
Proof.
  apply (ChunkUpload_size_out_of_range (Sim.env Sim.funded)).
  left. reflexivity.
Defined.

(** ** Construction *)

Tactic Notation "new_fields" :=
  cbn [modify get_client ret client_after emitted outcome after rev app
       logging client network currency mu debug contract
       set_client set_network set_currency set_mu set_debug set_logging
       set_contract set_HTTPClient set_rc_Logger set_retry new_Client
       retryablehttp_NewClient HTTPClient Transport Timeout rc_Logger RetryMax
       RetryWaitMin RetryWaitMax ErrorHandler negb].

Tactic Notation "new_fields" "in" hyp(H) :=
  cbn [modify get_client ret client_after emitted outcome after rev app
       logging client network currency mu debug contract
       set_client set_network set_currency set_mu set_debug set_logging
       set_contract set_HTTPClient set_rc_Logger set_retry new_Client
       retryablehttp_NewClient HTTPClient Transport Timeout rc_Logger RetryMax
       RetryWaitMin RetryWaitMax ErrorHandler negb] in H.

Section Construction.

Context (E : Env).

Lemma mu_Lock_run c h :
  mu c = Some {| locked := false |} ->
  mu_Lock c h = MkRes (Ret tt) (set_mu c (Some {| locked := true |})) [].
Proof.
  intros Hm. unfold mu_Lock. rewrite (bind_run _ _ _ _ c) by reflexivity.
  cbn [get_client client_after emitted outcome after rev app].
  rewrite Hm. reflexivity.
Qed.

Lemma mu_Unlock_run c h :
  mu c = Some {| locked := true |} ->
  mu_Unlock c h = MkRes (Ret tt) (set_mu c (Some {| locked := false |})) [].
Proof.
  intros Hm. unfold mu_Unlock. rewrite (bind_run _ _ _ _ c) by reflexivity.
  cbn [get_client client_after emitted outcome after rev app].
  rewrite Hm. reflexivity.
Qed.

Lemma getTokenContractAddress_run node cur c h resp info l :
  request_error E "GET" node = None ->
  client_Do E (client c) h (info_request node) = inl resp ->
  statusCheck E resp = None ->
  decodeBody_NodeInfo E (Body resp) = (info, None) ->
  logging c = Some l ->
  let r := getTokenContractAddress E node cur c h in
  client_after r = c /\
  requests (emitted r) = [info_request node] /\
  outcome r = Ret match Addresses info !! GetName cur with
                  | Some v => (v, None)
                  | None => ("", Some ErrCurrencyIsInvalid)
                  end.
Proof.
  intros Hq HDo Hst Hdec Hl r.
  assert (Hr : r = getTokenContractAddress E node cur c h) by reflexivity.
  clearbody r. unfold getTokenContractAddress, Get, NewRequestWithContext in Hr.
  rewrite Hq in Hr. fold (info_request node) in Hr.
  rewrite (bind_step _ _ _ _ (client_Do E (client c) h (info_request node))) in Hr
    by reflexivity.
  rewrite HDo, Hst, Hdec in Hr.
  destruct (Addresses info !! GetName cur) as [v|].
  - rewrite (bind_step _ _ _ _ tt) in Hr;
      [|rewrite debugMsg_run, Hl; now destruct (debug c)|apply debugMsg_preserves].
    rewrite debugMsg_run, Hl in Hr. rewrite Hr.
    destruct (debug c); repeat split.
  - rewrite Hr. repeat split.
Qed.

(** C10. When the options leave the object's pointers in place and its
    mutex free, [New] queries the node's info endpoint; when the node's
    address map has no entry for the currency's name it returns no client
    and [ErrCurrencyIsInvalid]; when it has one, the client it returns (the
    object it has built, with its logger set) carries exactly that address
    as its contract. *)
Theorem New_resolves_contract :
  forall (node : Node) (cur : Currency) (dbg : bool) (options : list Option)
         (h : history) (l : Logger) (resp : Response) (info : NodeInfo),
    let d := after_options node cur dbg options in
    let r := New E node cur dbg options new_Client h in
    client_set d = true ->
    HTTPClient_set d = true ->
    mu (obj d) = Some {| locked := false |} ->
    logger_New E default_logger_options = inl l ->
    request_error E "GET" node = None ->
    (forall rc, client_Do E rc h (info_request node) = inl resp) ->
    statusCheck E resp = None ->
    decodeBody_NodeInfo E (Body resp) = (info, None) ->
    requests (emitted r) = [info_request node] /\
    match Addresses info !! GetName cur with
    | None => outcome r = Ret (None, Some ErrCurrencyIsInvalid)
    | Some a =>
        exists c, outcome r = Ret (Some c, None) /\ contract c = a /\
                  client_after r = c /\ well_formed c
    end.
Proof.
  intros node cur dbg options h l resp info d r Hcs Hhs Hmu Hlog Hq HDo Hst Hdec.
  assert (Hr : r = New E node cur dbg options new_Client h) by reflexivity.
  clearbody r. unfold New in Hr.
  do 7 (rewrite (bind_run _ _ _ _ tt) in Hr by reflexivity; new_fields in Hr).
  erewrite bind_run in Hr by reflexivity. new_fields in Hr. cbv zeta in Hr.
  change (fold_left _ options _) with d in Hr.
  clearbody d.
  rewrite (bind_run _ _ _ _ tt) in Hr by reflexivity. new_fields in Hr.
  rewrite Hcs, Hhs in Hr. cbn [negb] in Hr.
  destruct d as [c0 cs hs]. cbn [obj] in *. clear Hcs Hhs cs hs.
  rewrite (bind_run _ _ _ _ c0) in Hr by reflexivity.
  cbn [get_client client_after emitted outcome after rev app] in Hr.
  assert (Hc1 : exists c1 l1,
             logging c1 = Some l1 /\ mu c1 = Some {| locked := false |} /\
             forall B (k : option error -> M B),
               bind match logging c0 with
                    | Some _ => ret None
                    | None =>
                        match logger_New E default_logger_options with
                        | inl l0 =>
                            modify (fun irys => set_logging irys (Some l0));;
                            ret None
                        | inr err => ret (Some err)
                        end
                    end k c0 h = graft [] (k None c1 h)).
  { destruct (logging c0) as [l0|] eqn:Hl0.
    - exists c0, l0. split; [exact Hl0|]. split; [exact Hmu|]. intros B k.
      now rewrite (bind_run _ _ _ _ None) by reflexivity.
    - rewrite Hlog. exists (set_logging c0 (Some l)), l. split; [reflexivity|].
      split; [exact Hmu|].
      intros B k. rewrite bind_assoc.
      rewrite (bind_run _ _ _ _ tt) by reflexivity.
      cbn [modify client_after emitted outcome after rev app].
      rewrite (bind_run _ _ _ _ None) by reflexivity.
      reflexivity. }
  destruct Hc1 as (c1 & l1 & Hl1 & Hm1 & Hk). rewrite Hk in Hr. clear Hk.
  rewrite (bind_run _ _ _ _ tt) in Hr by reflexivity.
  cbn [modify client_after emitted outcome after rev app] in Hr.
  rewrite (bind_run _ _ _ _ tt) in Hr by now destruct dbg.
  match type of Hr with
  | context [bind get_client _ ?c _] =>
      assert (Hl2 : logging c = Some l1) by (destruct dbg; exact Hl1);
      assert (Hm2 : mu c = Some {| locked := false |})
        by (destruct dbg; exact Hm1);
      generalize dependent c; intros c2; intros
  end.
  replace (after _ _ h) with h in Hr by now destruct dbg.
  rewrite (bind_run _ _ _ _ c2) in Hr by reflexivity.
  cbn [get_client client_after emitted outcome after rev app] in Hr.
  rewrite (bind_run _ _ _ _ tt) in Hr by now destruct (Transport _).
  match type of Hr with
  | context [bind mu_Lock _ ?c _] =>
      assert (Hl3 : logging c = Some l1) by (destruct (Transport _); exact Hl2);
      assert (Hm3 : mu c = Some {| locked := false |})
        by (destruct (Transport _); exact Hm2);
      generalize dependent c; intros c3; intros
  end.
  replace (after _ _ h) with h in Hr by now destruct (Transport _).
  pose proof (mu_Lock_run c3 h Hm3) as HL.
  rewrite (bind_run _ _ _ _ tt) in Hr by now rewrite HL.
  unfold after in Hr. rewrite HL in Hr.
  cbn [client_after emitted outcome rev app] in Hr.
  set (c4 := set_mu c3 (Some {| locked := true |})) in Hr.
  destruct (getTokenContractAddress_run node cur c4 h resp info l1
              Hq (HDo _) Hst Hdec Hl3) as (Hc & Hreq & Hout).
  rewrite (bind_run _ _ _ _ _ Hout) in Hr. rewrite Hc in Hr.
  match type of Hr with
  | context [emitted (?m ?c h)] =>
      lazymatch m with
      | (if negb dbg then _ else _) =>
          replace (emitted (m c h)) with (@nil event) in Hr by now destruct dbg
      end
  end.
  match type of Hr with
  | context [emitted (?m c2 h)] =>
      replace (emitted (m c2 h)) with (@nil event) in Hr
        by now destruct (Transport _)
  end.
  destruct (Addresses info !! GetName cur) as [a|].
  - pose proof (fun h' => mu_Unlock_run c4 h' eq_refl) as HU.
    rewrite (bind_run _ _ _ _ tt) in Hr by now rewrite HU.
    unfold after in Hr at 1. rewrite !HU in Hr.
    cbn [client_after emitted outcome rev app] in Hr.
    rewrite (bind_run _ _ _ _ tt) in Hr by reflexivity.
    cbn [modify client_after emitted outcome after rev app] in Hr.
    erewrite bind_run in Hr by reflexivity.
    rewrite Hr, !outcome_graft, !client_after_graft, !emitted_graft.
    cbn [emitted outcome client_after get_client ret app].
    rewrite !app_nil_r, Hreq.
    split; [reflexivity|]. eexists. repeat split.
    intros _. cbn. rewrite Hl3. discriminate.
  - rewrite Hr, !outcome_graft, !emitted_graft.
    cbn [emitted outcome client_after get_client ret app].
    rewrite !app_nil_r, Hreq.
    split; reflexivity.
Qed.

End Construction.

(** The theorem at work: the simulated node advertises an address for matic. *)
Lemma New_resolves_contract_witness :
  exists c,
    outcome (New (Sim.env Sim.funded) Sim.node Sim.matic false [] new_Client [])
    = Ret (Some c, None) /\ contract c = "0xa11ce" /\
    client_after (New (Sim.env Sim.funded) Sim.node Sim.matic false [] new_Client [])
    = c /\ well_formed c.
Proof.
  exact (proj2 (New_resolves_contract (Sim.env Sim.funded) Sim.node Sim.matic
           false [] [] {| logger_id := 7 |}
           {| StatusCode := 200; Header := [("Content-Type", "application/json")];
              ContentLength := 4; Body := Sim.body_of "info" |}
           {| Addresses := {[ "matic" := "0xa11ce" ]} |}
           eq_refl eq_refl eq_refl
           eq_refl eq_refl (fun _ => eq_refl) eq_refl eq_refl)).
Defined.

(** * Further properties of the operations *)

(** ** Counting requests and funding transactions *)

Section Counting.

Context {A B : Type}.

Lemma sends_ret n (a : A) : sends_at_most n (ret a).
Proof. intros c h. simpl. lia. Qed.

Lemma sends_panic n msg : sends_at_most n (@panic A msg).
Proof. intros c h. simpl. lia. Qed.

Lemma sends_get_client n : sends_at_most n get_client.
Proof. intros c h. simpl. lia. Qed.

Lemma sends_get_history n : sends_at_most n get_history.
Proof. intros c h. simpl. lia. Qed.

Lemma sends_emit n e : ~ is_request e -> sends_at_most n (emit e).
Proof.
  intros Hn c h. simpl. destruct e; simpl; try lia.
  destruct Hn. now exists req.
Qed.

Lemma sends_weaken (n n' : nat) (m : M A) :
  (n <= n')%nat -> sends_at_most n m -> sends_at_most n' m.
Proof. intros Hle Hm c h. specialize (Hm c h). lia. Qed.

Lemma sends_bind (n1 n2 : nat) (m : M A) (k : A -> M B) :
  sends_at_most n1 m -> (forall a, sends_at_most n2 (k a)) ->
  sends_at_most (n1 + n2) (bind m k).
Proof.
  intros Hm Hk c h. rewrite emitted_bind, requests_app, length_app.
  specialize (Hm c h). destruct (outcome (m c h)).
  - specialize (Hk a (client_after (m c h)) (rev (emitted (m c h)) ++ h)). lia.
  - simpl. lia.
Qed.

Lemma sends_defer n e (m : M A) :
  ~ is_request e -> sends_at_most n m -> sends_at_most n (defer e m).
Proof.
  intros Hn Hm c h. unfold defer. cbn [emitted].
  rewrite requests_app, length_app. specialize (Hm c h).
  destruct e; simpl; try lia. destruct Hn. now exists req.
Qed.

Lemma funds_ret n (a : A) : funds_at_most n (ret a).
Proof. intros c h. simpl. lia. Qed.

Lemma funds_panic n msg : funds_at_most n (@panic A msg).
Proof. intros c h. simpl. lia. Qed.

Lemma funds_weaken (n n' : nat) (m : M A) :
  (n <= n')%nat -> funds_at_most n m -> funds_at_most n' m.
Proof. intros Hle Hm c h. specialize (Hm c h). lia. Qed.

Lemma funds_of_never (m : M A) : never is_funding m -> funds_at_most 0 m.
Proof. intros Hm c h. now rewrite never_funding_txs. Qed.

Lemma funds_bind (n1 n2 : nat) (m : M A) (k : A -> M B) :
  funds_at_most n1 m -> (forall a, funds_at_most n2 (k a)) ->
  funds_at_most (n1 + n2) (bind m k).
Proof.
  intros Hm Hk c h. rewrite emitted_bind, funding_txs_app, length_app.
  specialize (Hm c h). destruct (outcome (m c h)).
  - specialize (Hk a (client_after (m c h)) (rev (emitted (m c h)) ++ h)). lia.
  - simpl. lia.
Qed.

End Counting.

Section Counting_select.

Context (E : Env).

Lemma select_Done_sends {R} n ctx (f : error -> R) (m : M R) :
  sends_at_most n m -> sends_at_most n (select_Done E ctx f m).
Proof.
  intros Hm c h. rewrite select_Done_run.
  destruct (ctx_Err E ctx h); [simpl; lia|apply Hm].
Qed.

End Counting_select.

#[export] Hint Resolve sends_ret sends_panic sends_get_client sends_get_history
  sends_emit : irys.

(** A walk that spends the budget of requests where a request is sent. *)
Ltac sends_walk :=
  repeat (intros;
          first [ solve [eauto 3 with irys]
                | apply sends_defer; [solve [eauto 3 with irys]|]
                | apply select_Done_sends
                | apply (sends_bind 0); [solve [sends_walk]|]
                | apply (sends_bind 1 _); [solve [eauto 3 with irys]|]
                | case_goal ]).

Section Budget.

Context (E : Env).

Lemma Do_sends req : sends_at_most 1 (Do E req).
Proof. intros c h. rewrite Do_run. simpl. lia. Qed.

Lemma debugMsg_sends n msg : sends_at_most n (debugMsg msg).
Proof.
  intros c h. rewrite debugMsg_run.
  destruct (debug c); [destruct (logging c)|]; simpl; lia.
Qed.

Lemma createTx_sends n ctx amount : sends_at_most n (createTx E ctx amount).
Proof. intros c h. simpl. lia. Qed.

#[local] Hint Resolve Do_sends debugMsg_sends createTx_sends : irys.

Lemma GetPrice_sends ctx n : sends_at_most 1 (GetPrice E ctx n).
Proof. unfold GetPrice. sends_walk. Qed.

Lemma GetBalance_sends ctx : sends_at_most 1 (GetBalance E ctx).
Proof. unfold GetBalance. sends_walk. Qed.

Lemma TopUpBalance_sends ctx amount : sends_at_most 1 (TopUpBalance E ctx amount).
Proof. unfold TopUpBalance. sends_walk. Qed.

Lemma Download_sends ctx txId : sends_at_most 1 (Download E ctx txId).
Proof. unfold Download. sends_walk. Qed.

Lemma GetMetaData_sends ctx txId : sends_at_most 1 (GetMetaData E ctx txId).
Proof. unfold GetMetaData. sends_walk. Qed.

Lemma GetReceipt_sends ctx txId : sends_at_most 1 (GetReceipt E ctx txId).
Proof. unfold GetReceipt. sends_walk. Qed.

Lemma upload_sends ctx url file tags :
  sends_at_most 1 (upload E ctx url file tags).
Proof. unfold upload. sends_walk. Qed.

Lemma Upload_sends ctx file tags : sends_at_most 1 (Upload E ctx file tags).
Proof.
  unfold Upload. apply (sends_bind 0); [apply sends_get_client|].
  intros. apply upload_sends.
Qed.

Lemma getTokenContractAddress_sends node cur :
  sends_at_most 1 (getTokenContractAddress E node cur).
Proof. unfold getTokenContractAddress, Get. sends_walk. Qed.

#[local] Hint Resolve GetPrice_sends GetBalance_sends TopUpBalance_sends
  upload_sends : irys.

Lemma BasicUpload_sends ctx file tags :
  sends_at_most 4 (BasicUpload E ctx file tags).
Proof.
  unfold BasicUpload.
  apply (sends_bind 0 4); [apply sends_get_client|intros c0].
  apply (sends_bind 1 3); [apply GetPrice_sends|intros [price [err|]]].
  { apply sends_ret. }
  apply (sends_bind 0 3); [apply debugMsg_sends|intros _].
  apply (sends_bind 1 2); [apply GetBalance_sends|intros [balance [err|]]].
  { apply sends_ret. }
  apply (sends_bind 0 2); [apply debugMsg_sends|intros _].
  destruct (BigInt_Cmp balance price) as [cmp|msg]; [|apply sends_panic].
  apply (sends_bind 1 1).
  - destruct (cmp <? 0); [|apply sends_ret].
    apply (sends_bind 1 0); [apply TopUpBalance_sends|intros [err|]].
    + apply sends_ret.
    + apply (sends_bind 0 0); [apply debugMsg_sends|intros; apply sends_ret].
  - intros [err|]; [apply sends_ret|apply upload_sends].
Qed.

(** X4. On every path each operation sends at most one request through
    the HTTP client, [BasicUpload] at most four, and [Close] none. *)
Theorem operations_send_few_requests :
  forall (ctx : Context) (n : Z) (amount : BigInt) (txId : string)
         (file : bytes) (tags : list Tag) (c : Client) (h : history),
    let sent {A} (m : M A) := length (requests (emitted (m c h))) in
    (sent (GetPrice E ctx n) <= 1)%nat /\
    (sent (GetBalance E ctx) <= 1)%nat /\
    (sent (TopUpBalance E ctx amount) <= 1)%nat /\
    (sent (Download E ctx txId) <= 1)%nat /\
    (sent (GetMetaData E ctx txId) <= 1)%nat /\
    (sent (GetReceipt E ctx txId) <= 1)%nat /\
    (sent (Upload E ctx file tags) <= 1)%nat /\
    (sent (BasicUpload E ctx file tags) <= 4)%nat /\
    sent Close = 0%nat.
Proof.
  intros. subst sent. cbv beta.
  repeat split;
    first [ apply GetPrice_sends | apply GetBalance_sends
          | apply TopUpBalance_sends | apply Download_sends
          | apply GetMetaData_sends | apply GetReceipt_sends
          | apply Upload_sends | apply BasicUpload_sends | idtac ].
  unfold Close. rewrite (emitted_step _ _ _ _ c) by reflexivity.
  destruct (Transport _) as [tr|]; [destruct (rt_closeIdler tr)|]; reflexivity.
Qed.

End Budget.

(** ** Funding transactions on every path *)

Section Money.

Context (E : Env).

#[local] Hint Resolve Do_unfunded debugMsg_unfunded : irys.

Lemma Download_unfunded ctx txId : never is_funding (Download E ctx txId).
Proof. unfold Download. never_walk. Qed.

Lemma GetMetaData_unfunded ctx txId : never is_funding (GetMetaData E ctx txId).
Proof. unfold GetMetaData. never_walk. Qed.

Lemma GetReceipt_unfunded ctx txId : never is_funding (GetReceipt E ctx txId).
Proof. unfold GetReceipt. never_walk. Qed.

Lemma Close_unfunded : never is_funding Close.
Proof. unfold Close. never_walk. Qed.

Lemma TopUpBalance_funds ctx amount : funds_at_most 1 (TopUpBalance E ctx amount).
Proof. intros c h. now rewrite TopUpBalance_funding. Qed.

Lemma BasicUpload_funds ctx file tags :
  funds_at_most 1 (BasicUpload E ctx file tags).
Proof.
  unfold BasicUpload.
  apply (funds_bind 0 1); [apply funds_of_never, never_get_client|intros c0].
  apply (funds_bind 0 1); [apply funds_of_never, GetPrice_unfunded|].
  intros [price [err|]]; [apply funds_ret|].
  apply (funds_bind 0 1); [apply funds_of_never, debugMsg_unfunded|intros _].
  apply (funds_bind 0 1); [apply funds_of_never, GetBalance_unfunded|].
  intros [balance [err|]]; [apply funds_ret|].
  apply (funds_bind 0 1); [apply funds_of_never, debugMsg_unfunded|intros _].
  destruct (BigInt_Cmp balance price) as [cmp|msg]; [|apply funds_panic].
  apply (funds_bind 1 0).
  - destruct (cmp <? 0); [|apply funds_ret].
    apply (funds_bind 1 0); [apply TopUpBalance_funds|intros [err|]].
    + apply funds_ret.
    + apply (funds_bind 0 0); [apply funds_of_never, debugMsg_unfunded|].
      intros; apply funds_ret.
  - intros [err|]; [apply funds_ret|apply funds_of_never, upload_unfunded].
Qed.

(** X3. On every path, whatever the environment answers: the queries,
    the retrievals, [Upload] and [Close] issue no funding transaction,
    [TopUpBalance] issues exactly one, of the amount it was given, and
    [BasicUpload] issues at most one. *)
Theorem funding_is_bounded :
  forall (ctx : Context) (n : Z) (amount : BigInt) (txId : string)
         (file : bytes) (tags : list Tag) (c : Client) (h : history),
    let funded {A} (m : M A) := funding_txs (emitted (m c h)) in
    funded (GetPrice E ctx n) = [] /\
    funded (GetBalance E ctx) = [] /\
    funded (Download E ctx txId) = [] /\
    funded (GetMetaData E ctx txId) = [] /\
    funded (GetReceipt E ctx txId) = [] /\
    funded (Upload E ctx file tags) = [] /\
    funded Close = [] /\
    funded (TopUpBalance E ctx amount) = [amount] /\
    (length (funded (BasicUpload E ctx file tags)) <= 1)%nat.
Proof.
  intros. subst funded. cbv beta.
  repeat split;
    first [ apply BasicUpload_funds | apply TopUpBalance_funding
          | apply never_funding_txs;
            first [ apply GetPrice_unfunded | apply GetBalance_unfunded
                  | apply Download_unfunded | apply GetMetaData_unfunded
                  | apply GetReceipt_unfunded | apply Upload_unfunded
                  | apply Close_unfunded ] ].
Qed.

End Money.

(** ** The value that comes with an error *)

Section Returned_values.

Context {A B : Type}.

Lemma returns_ret (P : A -> Prop) (a : A) : P a -> returns P (ret a).
Proof. intros Hp c h a0 [= <-]. exact Hp. Qed.

Lemma returns_panic (P : A -> Prop) msg : returns P (@panic A msg).
Proof. intros c h a0 [=]. Qed.

Lemma returns_bind (P : B -> Prop) (m : M A) (k : A -> M B) :
  (forall a, returns P (k a)) -> returns P (bind m k).
Proof.
  intros Hk c h b. rewrite outcome_bind.
  destruct (outcome (m c h)); [apply Hk|discriminate].
Qed.

Lemma returns_defer (P : A -> Prop) e (m : M A) :
  returns P m -> returns P (defer e m).
Proof. intros Hm c h a. apply Hm. Qed.

End Returned_values.

Section Returned_select.

Context (E : Env).

Lemma select_Done_returns {R} (P : R -> Prop) ctx (f : error -> R) (m : M R) :
  (forall err, P (f err)) -> returns P m -> returns P (select_Done E ctx f m).
Proof.
  intros Hf Hm c h a. rewrite select_Done_run.
  destruct (ctx_Err E ctx h); [intros [= <-]; apply Hf|apply Hm].
Qed.

End Returned_select.

#[export] Hint Extern 1 (zero_on_error _ _) =>
  (unfold zero_on_error; simpl; intros; congruence) : irys.

Ltac returns_walk :=
  repeat (intros;
          first [ solve [eauto 3 with irys]
                | apply returns_panic
                | apply returns_ret
                | apply returns_defer
                | apply select_Done_returns
                | apply returns_bind
                | case_goal ]).

Section Zero_values.

Context (E : Env).

Lemma GetBalance_zero ctx : returns (zero_on_error None) (GetBalance E ctx).
Proof. unfold GetBalance. returns_walk. Qed.

Lemma Download_zero ctx txId : returns (zero_on_error None) (Download E ctx txId).
Proof. unfold Download. returns_walk. Qed.

Lemma GetReceipt_zero ctx txId :
  returns (zero_on_error zero_Receipt) (GetReceipt E ctx txId).
Proof. unfold GetReceipt. returns_walk. Qed.

(** X15. Whenever [GetBalance], [Download] or [GetReceipt] return an
    error, the value beside it is the zero value (nil, nil, the empty
    receipt). *)
Theorem error_comes_with_zero_value :
  forall (ctx : Context) (txId : string) (c : Client) (h : history) (err : error),
    (forall v, outcome (GetBalance E ctx c h) = Ret (v, Some err) -> v = None) /\
    (forall v, outcome (Download E ctx txId c h) = Ret (v, Some err) -> v = None) /\
    (forall v, outcome (GetReceipt E ctx txId c h) = Ret (v, Some err) ->
               v = zero_Receipt).
Proof.
  intros ctx txId c h err. repeat split; intros v Hv.
  - now apply (GetBalance_zero ctx c h _ Hv).
  - now apply (Download_zero ctx txId c h _ Hv).
  - now apply (GetReceipt_zero ctx txId c h _ Hv).
Qed.

End Zero_values.

(** ** Logging follows the debug flag *)

Section Hush.

Context {A B : Type}.

Lemma hushed_ret (a : A) : hushed (ret a).
Proof. intros c h ev _ []. Qed.

Lemma hushed_panic msg : hushed (@panic A msg).
Proof. intros c h ev _ []. Qed.

Lemma hushed_get_client : hushed get_client.
Proof. intros c h ev _ []. Qed.

Lemma hushed_get_history : hushed get_history.
Proof. intros c h ev _ []. Qed.

Lemma hushed_emit e : ~ is_log e -> hushed (emit e).
Proof. intros Hn c h ev _ [<-|[]]. exact Hn. Qed.

Lemma hushed_bind (m : M A) (k : A -> M B) :
  preserves m -> hushed m -> (forall a, hushed (k a)) -> hushed (bind m k).
Proof.
  intros Hp Hm Hk c h ev Hd. rewrite emitted_bind, in_app_iff, Hp.
  intros [Hin|Hin]; [now apply (Hm c h)|].
  destruct (outcome (m c h)); [exact (Hk a c _ ev Hd Hin)|destruct Hin].
Qed.

Lemma hushed_defer e (m : M A) : ~ is_log e -> hushed m -> hushed (defer e m).
Proof.
  intros Hn Hm c h ev Hd. unfold defer; cbn [emitted]. rewrite in_app_iff.
  intros [Hin|[<-|[]]]; [now apply (Hm c h)|exact Hn].
Qed.

End Hush.

#[export] Hint Extern 1 (~ is_log _) => (intros (? & ? & ?); discriminate) : irys.
#[export] Hint Extern 1 (~ is_close _) => (intros [? ?]; discriminate) : irys.
#[export] Hint Resolve hushed_ret hushed_panic hushed_get_client
  hushed_get_history hushed_emit : irys.

Section Hush_methods.

Context (E : Env).

Lemma select_Done_hushed {R} ctx (f : error -> R) (m : M R) :
  hushed m -> hushed (select_Done E ctx f m).
Proof.
  intros Hm c h ev Hd. rewrite select_Done_run.
  destruct (ctx_Err E ctx h); [|now apply Hm].
  intros [<-|[]]. intros (? & ? & ?); discriminate.
Qed.

Lemma debugMsg_hushed msg : hushed (debugMsg msg).
Proof. intros c h ev Hd. rewrite debugMsg_run, Hd. intros []. Qed.

Lemma Do_hushed req : hushed (Do E req).
Proof.
  intros c h ev _. rewrite Do_run. intros [<-|[]].
  intros (? & ? & ?); discriminate.
Qed.

Lemma createTx_hushed ctx amount : hushed (createTx E ctx amount).
Proof.
  intros c h ev _. intros [<-|[]]. intros (? & ? & ?); discriminate.
Qed.

End Hush_methods.

#[export] Hint Resolve Do_preserves debugMsg_preserves createTx_preserves
  GetPrice_preserves GetBalance_preserves TopUpBalance_preserves
  upload_preserves : irys.
#[export] Hint Resolve debugMsg_hushed Do_hushed createTx_hushed : irys.

Ltac hushed_walk :=
  repeat (intros;
          first [ solve [eauto 3 with irys]
                | apply hushed_defer; [solve [eauto 3 with irys]|]
                | apply select_Done_hushed
                | apply hushed_bind; [solve [preserves_walk]| |]
                | case_goal ]).

Section Hush_operations.

Context (E : Env).

Lemma GetPrice_hushed ctx n : hushed (GetPrice E ctx n).
Proof. unfold GetPrice. hushed_walk. Qed.

Lemma GetBalance_hushed ctx : hushed (GetBalance E ctx).
Proof. unfold GetBalance. hushed_walk. Qed.

Lemma TopUpBalance_hushed ctx amount : hushed (TopUpBalance E ctx amount).
Proof. unfold TopUpBalance. hushed_walk. Qed.

Lemma upload_hushed ctx url file tags : hushed (upload E ctx url file tags).
Proof. unfold upload. hushed_walk. Qed.

#[local] Hint Resolve GetPrice_hushed GetBalance_hushed TopUpBalance_hushed
  upload_hushed : irys.

Lemma BasicUpload_hushed ctx file tags : hushed (BasicUpload E ctx file tags).
Proof. unfold BasicUpload. hushed_walk. Qed.

Lemma Upload_hushed ctx file tags : hushed (Upload E ctx file tags).
Proof. unfold Upload. hushed_walk. Qed.

Lemma getTokenContractAddress_hushed node cur :
  hushed (getTokenContractAddress E node cur).
Proof. unfold getTokenContractAddress, Get. hushed_walk. Qed.

(** X18. On a client whose debug flag is off, [BasicUpload], [Upload],
    [TopUpBalance] and the query of the contract address log nothing. *)
Theorem debug_off_logs_nothing :
  forall (ctx : Context) (amount : BigInt) (file : bytes) (tags : list Tag)
         (node : Node) (cur : Currency) (c : Client) (h : history) (ev : event),
    debug c = false ->
    In ev (emitted (BasicUpload E ctx file tags c h)) \/
    In ev (emitted (Upload E ctx file tags c h)) \/
    In ev (emitted (TopUpBalance E ctx amount c h)) \/
    In ev (emitted (getTokenContractAddress E node cur c h)) ->
    ~ is_log ev.
Proof.
  intros ctx amount file tags node cur c h ev Hd [H|[H|[H|H]]].
  - now apply (BasicUpload_hushed ctx file tags c h).
  - now apply (Upload_hushed ctx file tags c h).
  - now apply (TopUpBalance_hushed ctx amount c h).
  - now apply (getTokenContractAddress_hushed node cur c h).
Qed.

End Hush_operations.

(** ** A failed query stops the funded upload *)

Section Stops.

Context (E : Env).

(** X1. When the price query fails, [BasicUpload] returns its error and
    the empty transaction and does nothing more: what it emitted is what
    the price query emitted (no balance query, no funding, no upload). *)
Theorem BasicUpload_stops_on_price_error :
  forall (ctx : Context) (file : bytes) (tags : list Tag)
         (c : Client) (h : history) (v : BigInt) (err : error),
    let q := GetPrice E ctx (Z.of_nat (length file)) c h in
    outcome q = Ret (v, Some err) ->
    BasicUpload E ctx file tags c h
    = MkRes (Ret (zero_Transaction, Some err)) c (emitted q).
Proof.
  intros ctx file tags c h v err q Hq. unfold BasicUpload.
  rewrite (bind_step _ _ _ _ c) by reflexivity.
  rewrite (bind_step _ _ _ _ _ Hq) by apply GetPrice_preserves.
  unfold graft. simpl. now rewrite app_nil_r.
Qed.

(** X2. When the price is obtained and the balance query fails,
    [BasicUpload] returns that error; it has issued no funding transaction
    and sent the requests of the two queries only. *)
Theorem BasicUpload_stops_on_balance_error :
  forall (ctx : Context) (file : bytes) (tags : list Tag)
         (c : Client) (h : history) (price v : BigInt) (err : error),
    let q := GetPrice E ctx (Z.of_nat (length file)) c h in
    let say := debugMsg ("[BasicUpload] get price " +:+ BigInt_String price) in
    let b := GetBalance E ctx c (after say c (after (GetPrice E ctx (Z.of_nat (length file))) c h)) in
    let r := BasicUpload E ctx file tags c h in
    well_formed c ->
    outcome q = Ret (price, None) ->
    outcome b = Ret (v, Some err) ->
    outcome r = Ret (zero_Transaction, Some err) /\
    funding_txs (emitted r) = [] /\
    requests (emitted r) = requests (emitted q) ++ requests (emitted b).
Proof.
  intros ctx file tags c h price v err q say b r Hwf Hq Hb.
  assert (Hr : r = BasicUpload E ctx file tags c h) by reflexivity.
  clearbody r. unfold BasicUpload in Hr.
  rewrite (bind_step _ _ _ _ c) in Hr by reflexivity.
  rewrite (bind_step _ _ _ _ _ Hq) in Hr by apply GetPrice_preserves.
  rewrite (bind_step _ _ _ _ tt) in Hr
    by (apply debugMsg_returns, Hwf || apply debugMsg_preserves).
  rewrite (bind_step _ _ _ _ _ Hb) in Hr by apply GetBalance_preserves.
  rewrite Hr, !outcome_graft, !emitted_graft. cbn [outcome emitted ret].
  rewrite !funding_txs_app, !requests_app, !app_nil_r.
  rewrite (never_funding_txs (GetPrice E ctx _)) by apply GetPrice_unfunded.
  rewrite (never_funding_txs (GetBalance E ctx)) by apply GetBalance_unfunded.
  rewrite !(never_funding_txs (debugMsg _)) by apply debugMsg_unfunded.
  rewrite (never_requests (debugMsg _)).
  2: { intros c0 h0 ev. rewrite debugMsg_run.
       destruct (debug c0); [destruct (logging c0)|]; simpl;
         intros Hin [req ->]; intuition discriminate. }
  repeat split.
Qed.

End Stops.

Lemma BasicUpload_stops_on_price_error_witness :
  BasicUpload (Sim.env Sim.unknown_currency) (Ctx 1) Sim.payload []
    (Sim.client_of Sim.matic false) []
  = MkRes (Ret (zero_Transaction, Some (ErrExternal "statusCheck" "400")))
      (Sim.client_of Sim.matic false)
      (emitted (GetPrice (Sim.env Sim.unknown_currency) (Ctx 1) 5
                  (Sim.client_of Sim.matic false) [])).
Proof.
  exact (BasicUpload_stops_on_price_error (Sim.env Sim.unknown_currency) (Ctx 1)
           Sim.payload [] (Sim.client_of Sim.matic false) [] None
           (ErrExternal "statusCheck" "400") eq_refl).
Defined.

Lemma BasicUpload_stops_on_balance_error_witness :
  let r := BasicUpload Lab.balance_down (Ctx 1) Sim.payload []
             (Sim.client_of Sim.matic true) [] in
  outcome r = Ret (zero_Transaction, Some Lab.timeout) /\
  funding_txs (emitted r) = [].
Proof.
  assert (Hwf : well_formed (Sim.client_of Sim.matic true))
    by (intros _; discriminate).
  pose proof (BasicUpload_stops_on_balance_error Lab.balance_down (Ctx 1)
                Sim.payload [] (Sim.client_of Sim.matic true) [] (Some 50) None
                Lab.timeout Hwf eq_refl eq_refl) as H.
  exact (conj (proj1 H) (proj1 (proj2 H))).
Defined.

(** ** Topping up *)

Section TopUp.

Context (E : Env).

(** X5. When the funding transaction cannot be created, [TopUpBalance]
    returns that error without sending the confirmation request. *)
Theorem TopUpBalance_stops_on_broadcast_error :
  forall (ctx : Context) (amount : BigInt) (c : Client) (h : history)
         (hash : string) (err : error),
    createTx_result E c h ctx amount = (hash, Some err) ->
    TopUpBalance E ctx amount c h
    = MkRes (Ret (Some err)) c [EvCreateTx amount].
Proof.
  intros ctx amount c h hash err Htx. unfold TopUpBalance.
  rewrite (bind_step _ _ _ _ c) by reflexivity.
  rewrite (bind_step _ _ _ _ (createTx_result E c h ctx amount)) by reflexivity.
  rewrite Htx. reflexivity.
Qed.

(** X6. Once the funding transaction is out, the one request
    [TopUpBalance] sends is the POST of the marshalled hash, as JSON, to
    {node}/account/balance/matic; when it is answered and the context is
    not done, the result is [statusCheck]'s verdict on the answer, whose
    body is closed. *)
Theorem TopUpBalance_confirms_the_hash :
  forall (ctx : Context) (amount : BigInt) (c : Client) (h : history)
         (hash : string) (b : bytes),
    let url := network c +:+ "/account/balance/matic" in
    let r := TopUpBalance E ctx amount c h in
    createTx_result E c h ctx amount = (hash, None) ->
    json_Marshal E {| TxId := hash |} = (b, None) ->
    request_error E "POST" url = None ->
    requests (emitted r) = [post_json ctx url b] /\
    forall resp,
      client_Do E (client c) (EvCreateTx amount :: h) (post_json ctx url b)
        = inl resp ->
      ctx_Err E ctx (EvDo (post_json ctx url b) :: EvCreateTx amount :: h) = None ->
      outcome r = Ret (statusCheck E resp) /\
      closed_bodies (emitted r) = [resp].
Proof.
  intros ctx amount c h hash b url r Htx Hm Hq.
  assert (Hr : r = TopUpBalance E ctx amount c h) by reflexivity.
  clearbody r. unfold TopUpBalance in Hr.
  rewrite (bind_step _ _ _ _ c) in Hr by reflexivity.
  rewrite (bind_step _ _ _ _ (createTx_result E c h ctx amount)) in Hr
    by reflexivity.
  rewrite Htx, Hm in Hr. unfold NewRequestWithContext in Hr.
  change (_sendTxToBalance (network c)) with url in Hr. rewrite Hq in Hr.
  change (Header_Set _ "Content-Type" "application/json")
    with (post_json ctx url b) in Hr.
  rewrite (bind_step _ _ _ _
             (client_Do E (client c) (EvCreateTx amount :: h) (post_json ctx url b)))
    in Hr by reflexivity.
  change (after (Do E (post_json ctx url b)) c
            (after (createTx E ctx amount) c (after get_client c h)))
    with (EvDo (post_json ctx url b) :: EvCreateTx amount :: h) in Hr.
  split.
  - rewrite Hr, !emitted_graft, !requests_app, Do_run.
    change (emitted (createTx E ctx amount c (after get_client c h)))
      with [EvCreateTx amount].
    cbn [emitted get_client requests flat_map app].
    match goal with
    | |- context [requests (emitted (?K c ?hh))] =>
        rewrite (never_requests K c hh) by never_walk
    end.
    reflexivity.
  - intros resp HDo Hctx. rewrite HDo, defer_run, select_Done_run, Hctx in Hr.
    rewrite Hr, !outcome_graft, !emitted_graft. split; reflexivity.
Qed.

End TopUp.

Lemma TopUpBalance_stops_on_broadcast_error_witness :
  TopUpBalance Lab.broadcast_fails (Ctx 1) (Some 50)
    (Sim.client_of Sim.matic false) []
  = MkRes (Ret (Some (ErrExternal "rpc" "insufficient funds")))
      (Sim.client_of Sim.matic false) [EvCreateTx (Some 50)].
Proof.
  exact (TopUpBalance_stops_on_broadcast_error Lab.broadcast_fails (Ctx 1)
           (Some 50) (Sim.client_of Sim.matic false) [] ""
           (ErrExternal "rpc" "insufficient funds") eq_refl).
Defined.

Lemma TopUpBalance_confirms_the_hash_witness :
  requests (emitted (TopUpBalance (Sim.env Sim.short) (Ctx 1) (Some 50)
                       (Sim.client_of Sim.ethereum false) []))
  = [post_json (Ctx 1) "https://node2.irys.xyz/account/balance/matic"
       (Sim.body_of "0xfeed")].
Proof.
  exact (proj1 (TopUpBalance_confirms_the_hash (Sim.env Sim.short) (Ctx 1)
                  (Some 50) (Sim.client_of Sim.ethereum false) [] "0xfeed"
                  (Sim.body_of "0xfeed") eq_refl eq_refl eq_refl)).
Defined.

(** ** The endpoint of each query *)

Section Endpoints.

Context (E : Env).

Lemma sends_only {B} (req : Request) (k : Response + error -> M B) c h :
  (forall r, never is_request (k r)) ->
  requests (emitted (bind (Do E req) k c h)) = [req].
Proof.
  intros Hk. rewrite (emitted_step _ _ _ _ (client_Do E (client c) h req))
    by reflexivity.
  rewrite requests_app, (never_requests (k _)) by apply Hk. reflexivity.
Qed.

(** X7. The requests of [GetPrice]: one GET of
    {node}/price/{currency name}/{size in decimal}, for every size (none
    is refused), or nothing when the request cannot be built. *)
Theorem GetPrice_endpoint :
  forall (ctx : Context) (n : Z) (c : Client) (h : history),
    let url := network c +:+ "/price/" +:+ GetName (currency c) +:+ "/" +:+ pretty n in
    requests (emitted (GetPrice E ctx n c h))
    = match request_error E "GET" url with
      | None => [get_request ctx url]
      | Some _ => []
      end.
Proof.
  intros ctx n c h url. unfold GetPrice, NewRequestWithContext.
  rewrite (emitted_step _ _ _ _ c) by reflexivity.
  change (_pricePath (network c) (GetName (currency c)) n) with url.
  destruct (request_error E "GET" url); [reflexivity|].
  apply (sends_only (get_request ctx url)). never_walk.
Qed.

(** X8. The requests of [GetBalance]: one GET of
    {node}/account/balance/matic?address={address of the public key},
    whatever the currency's name; nothing when the key is nil (the
    operation panics) or the request cannot be built. *)
Theorem GetBalance_endpoint :
  forall (ctx : Context) (c : Client) (h : history),
    requests (emitted (GetBalance E ctx c h))
    = match GetPublicKey (currency c) with
      | None => []
      | Some key =>
          let url := network c +:+ "/account/balance/matic?address="
                     +:+ PubkeyToAddress_Hex E key in
          match request_error E "GET" url with
          | None => [get_request ctx url]
          | Some _ => []
          end
      end.
Proof.
  intros ctx c h. unfold GetBalance, NewRequestWithContext.
  rewrite (emitted_step _ _ _ _ c) by reflexivity.
  destruct (GetPublicKey (currency c)) as [key|]; [|reflexivity].
  cbv zeta.
  change (_getBalance (network c) (PubkeyToAddress_Hex E key))
    with (network c +:+ "/account/balance/matic?address="
          +:+ PubkeyToAddress_Hex E key).
  destruct (request_error E "GET" _); [reflexivity|].
  apply (sends_only (get_request ctx _)). never_walk.
Qed.

(** X9. [Download] and [GetMetaData] address the default gateway, not
    the client's node: one GET of {gateway}/{txId} and of
    {gateway}/tx/{txId}. *)
Theorem gateway_endpoints :
  forall (ctx : Context) (txId : string) (c : Client) (h : history),
    let file_url := _defaultGateway E +:+ "/" +:+ txId in
    let meta_url := _defaultGateway E +:+ "/tx/" +:+ txId in
    requests (emitted (Download E ctx txId c h))
    = match request_error E "GET" file_url with
      | None => [get_request ctx file_url]
      | Some _ => []
      end /\
    requests (emitted (GetMetaData E ctx txId c h))
    = match request_error E "GET" meta_url with
      | None => [get_request ctx meta_url]
      | Some _ => []
      end.
Proof.
  intros ctx txId c h file_url meta_url. split.
  - unfold Download, NewRequestWithContext.
    change (_downloadPath (_defaultGateway E) txId) with file_url.
    destruct (request_error E "GET" file_url); [reflexivity|].
    apply (sends_only (get_request ctx file_url)). never_walk.
  - unfold GetMetaData, NewRequestWithContext.
    change (_txPath (_defaultGateway E) txId) with meta_url.
    destruct (request_error E "GET" meta_url); [reflexivity|].
    apply (sends_only (get_request ctx meta_url)). never_walk.
Qed.

Lemma Download_same ctx txId c1 c2 h :
  client c1 = client c2 ->
  outcome (Download E ctx txId c1 h) = outcome (Download E ctx txId c2 h) /\
  emitted (Download E ctx txId c1 h) = emitted (Download E ctx txId c2 h).
Proof.
  intros Hc. unfold Download.
  destruct (NewRequestWithContext E ctx "GET" _ None) as [req|err];
    [|split; reflexivity].
  rewrite !(outcome_step _ _ _ _ (client_Do E (client c2) h req)),
          !(emitted_step _ _ _ _ (client_Do E (client c2) h req))
    by (rewrite Do_run, ?Hc; reflexivity).
  rewrite !Do_run. cbn [emitted].
  change (after (Do E req) c1 h) with (EvDo req :: h).
  change (after (Do E req) c2 h) with (EvDo req :: h).
  destruct (client_Do E (client c2) h req) as [resp|err]; [|split; reflexivity].
  rewrite !select_Done_run.
  destruct (ctx_Err E ctx (EvDo req :: h)); [split; reflexivity|].
  destruct (statusCheck E resp); split; reflexivity.
Qed.

Lemma GetMetaData_same ctx txId c1 c2 h :
  client c1 = client c2 ->
  outcome (GetMetaData E ctx txId c1 h) = outcome (GetMetaData E ctx txId c2 h) /\
  emitted (GetMetaData E ctx txId c1 h) = emitted (GetMetaData E ctx txId c2 h).
Proof.
  intros Hc. unfold GetMetaData.
  destruct (NewRequestWithContext E ctx "GET" _ None) as [req|err];
    [|split; reflexivity].
  rewrite !(outcome_step _ _ _ _ (client_Do E (client c2) h req)),
          !(emitted_step _ _ _ _ (client_Do E (client c2) h req))
    by (rewrite Do_run, ?Hc; reflexivity).
  rewrite !Do_run. cbn [emitted].
  change (after (Do E req) c1 h) with (EvDo req :: h).
  change (after (Do E req) c2 h) with (EvDo req :: h).
  destruct (client_Do E (client c2) h req) as [resp|err]; [|split; reflexivity].
  rewrite !defer_run, !select_Done_run. cbn [outcome emitted].
  destruct (ctx_Err E ctx (EvDo req :: h)); [split; reflexivity|].
  destruct (statusCheck E resp); split; reflexivity.
Qed.

(** X10. Retrieval looks at the client's HTTP client and at nothing else
    of it: two clients that share it, whatever their node, currency,
    contract or debug flag, get the same result and emit the same events. *)
Theorem retrieval_ignores_node_and_currency :
  forall (ctx : Context) (txId : string) (c1 c2 : Client) (h : history),
    client c1 = client c2 ->
    outcome (Download E ctx txId c1 h) = outcome (Download E ctx txId c2 h) /\
    emitted (Download E ctx txId c1 h) = emitted (Download E ctx txId c2 h) /\
    outcome (GetMetaData E ctx txId c1 h) = outcome (GetMetaData E ctx txId c2 h) /\
    emitted (GetMetaData E ctx txId c1 h) = emitted (GetMetaData E ctx txId c2 h).
Proof.
  intros ctx txId c1 c2 h Hc.
  destruct (Download_same ctx txId c1 c2 h Hc) as [H1 H2].
  destruct (GetMetaData_same ctx txId c1 c2 h Hc) as [H3 H4].
  now repeat split.
Qed.

End Endpoints.

Lemma retrieval_ignores_node_and_currency_witness :
  outcome (Download (Sim.env Sim.funded) (Ctx 1) "tx-1"
             (Sim.client_of Sim.matic false) [])
  = outcome (Download (Sim.env Sim.funded) (Ctx 1) "tx-1"
               (set_network (Sim.client_of Sim.ethereum false) "https://elsewhere") []).
Proof.
  exact (proj1 (retrieval_ignores_node_and_currency (Sim.env Sim.funded) (Ctx 1)
                  "tx-1" (Sim.client_of Sim.matic false)
                  (set_network (Sim.client_of Sim.ethereum false) "https://elsewhere")
                  [] eq_refl)).
Defined.

(** ** Response bodies *)

Section Bodies.

Context (E : Env).

Lemma closed_bodies_app (l1 l2 : list event) :
  closed_bodies (l1 ++ l2) = closed_bodies l1 ++ closed_bodies l2.
Proof. apply flat_map_app. Qed.

Lemma closed_bodies_none (evs : list event) :
  (forall ev, In ev evs -> ~ is_close ev) -> closed_bodies evs = [].
Proof.
  induction evs as [|ev evs IH]; intros Hn; [reflexivity|].
  simpl. rewrite IH by (intros; apply Hn; now right).
  destruct ev; try reflexivity.
  destruct (Hn (EvBodyClose resp)); [now left|now exists resp].
Qed.

Lemma Do_unclosed req : never is_close (Do E req).
Proof. unfold Do. never_walk. Qed.

Lemma debugMsg_unclosed msg : never is_close (debugMsg msg).
Proof. unfold debugMsg. never_walk. Qed.

#[local] Hint Resolve Do_unclosed debugMsg_unclosed : irys.

Lemma Download_unclosed ctx txId : never is_close (Download E ctx txId).
Proof. unfold Download. never_walk. Qed.

Lemma getTokenContractAddress_unclosed node cur :
  never is_close (getTokenContractAddress E node cur).
Proof. unfold getTokenContractAddress, Get. never_walk. Qed.

(** X11. [Download] never closes the response body, also on the paths
    that return an error; on success the file it returns carries the
    body, the headers, the content length and the Content-Type header of
    the response. *)
Theorem Download_hands_over_the_body :
  forall (ctx : Context) (txId : string) (c : Client) (h : history),
    let url := _defaultGateway E +:+ "/" +:+ txId in
    closed_bodies (emitted (Download E ctx txId c h)) = [] /\
    forall resp,
      request_error E "GET" url = None ->
      client_Do E (client c) h (get_request ctx url) = inl resp ->
      ctx_Err E ctx (EvDo (get_request ctx url) :: h) = None ->
      statusCheck E resp = None ->
      outcome (Download E ctx txId c h)
      = Ret (Some {| f_Data := Body resp; f_Header := Header resp;
                     f_ContentLength := ContentLength resp;
                     f_ContentType := Header_Get (Header resp) "Content-Type" |},
             None).
Proof.
  intros ctx txId c h url. split.
  - apply closed_bodies_none. intros ev. apply Download_unclosed.
  - intros resp Hq HDo Hctx Hst. unfold Download, NewRequestWithContext.
    change (_downloadPath (_defaultGateway E) txId) with url. rewrite Hq.
    fold (get_request ctx url).
    rewrite (outcome_step _ _ _ _ (inl resp))
      by (rewrite Do_run; first [exact (f_equal Ret HDo) | reflexivity]).
    change (after (Do E (get_request ctx url)) c h)
      with (EvDo (get_request ctx url) :: h).
    now rewrite select_Done_run, Hctx, Hst.
Qed.

(** X12. Once [GetReceipt] has a response it closes its body, exactly
    once and as its last act, whatever comes next: a done context, a bad
    status, a decoding error, a receipt, a miss or the panic on an empty
    edge list. *)
Theorem GetReceipt_closes_the_body :
  forall (ctx : Context) (txId : string) (c : Client) (h : history)
         (resp : Response),
    let url := network c +:+ "/graphql" in
    let req := post_json ctx url (String.list_byte_of_string (receipt_query txId)) in
    request_error E "POST" url = None ->
    client_Do E (client c) h req = inl resp ->
    closed_bodies (emitted (GetReceipt E ctx txId c h)) = [resp] /\
    last (emitted (GetReceipt E ctx txId c h)) = Some (EvBodyClose resp).
Proof.
  intros ctx txId c h resp url req Hq HDo.
  unfold GetReceipt, NewRequestWithContext.
  rewrite (emitted_step _ _ _ _ c) by reflexivity.
  change (_graphql (network c)) with url. rewrite Hq.
  change (Header_Add _ "Content-Type" "application/json") with req.
  rewrite (emitted_step _ _ _ _ (inl resp))
    by (rewrite Do_run; first [exact (f_equal Ret HDo) | reflexivity]).
  rewrite Do_run, defer_run. cbn [emitted app].
  split.
  - change (?a :: ?l ++ ?b) with ([a] ++ (l ++ b)).
    rewrite !closed_bodies_app.
    rewrite (closed_bodies_none (emitted (select_Done _ _ _ _ _ _))); [reflexivity|].
    intros ev.
    match goal with
    | |- In _ (emitted (?m ?c0 ?h0)) -> _ =>
        assert (Hm : never is_close m) by never_walk; apply Hm
    end.
  - change (?a :: ?l ++ ?b) with ((a :: l) ++ b). apply last_snoc.
Qed.

(** X13. When the answer decodes to a non-empty edge list, [GetReceipt]
    returns the receipt of its first edge and no error; the other edges
    are not looked at. *)
Theorem GetReceipt_takes_the_first_edge :
  forall (ctx : Context) (txId : string) (c : Client) (h : history)
         (resp : Response) (response : ReceiptResponse)
         (e0 : ReceiptEdge) (rest : list ReceiptEdge),
    let url := network c +:+ "/graphql" in
    let req := post_json ctx url (String.list_byte_of_string (receipt_query txId)) in
    request_error E "POST" url = None ->
    client_Do E (client c) h req = inl resp ->
    ctx_Err E ctx (EvDo req :: h) = None ->
    statusCheck E resp = None ->
    decodeBody_ReceiptResponse E (Body resp) = (response, None) ->
    Edges (Transactions (Data response)) = Some (e0 :: rest) ->
    outcome (GetReceipt E ctx txId c h) = Ret (rn_Receipt (Node_ e0), None).
Proof.
  intros ctx txId c h resp response e0 rest url req Hq HDo Hctx Hst Hdec Hedges.
  unfold GetReceipt, NewRequestWithContext.
  rewrite (outcome_step _ _ _ _ c) by reflexivity.
  change (_graphql (network c)) with url. rewrite Hq.
  change (Header_Add _ "Content-Type" "application/json") with req.
  rewrite (outcome_step _ _ _ _ (inl resp))
    by (rewrite Do_run; first [exact (f_equal Ret HDo) | reflexivity]).
  change (after (Do E req) c (after get_client c h)) with (EvDo req :: h).
  rewrite defer_run, select_Done_run, Hctx, Hst, Hdec, Hedges. reflexivity.
Qed.

End Bodies.

Lemma GetReceipt_closes_the_body_witness :
  closed_bodies
    (emitted (GetReceipt (Sim.env (Sim.with_edges (Some []))) (Ctx 1) "tx-1"
                (Sim.client_of Sim.matic false) []))
  = [{| StatusCode := 200; Header := [("Content-Type", "application/json")];
        ContentLength := 2; Body := Sim.body_of "[]" |}].
Proof.
  exact (proj1 (GetReceipt_closes_the_body (Sim.env (Sim.with_edges (Some [])))
                  (Ctx 1) "tx-1" (Sim.client_of Sim.matic false) []
                  {| StatusCode := 200;
                     Header := [("Content-Type", "application/json")];
                     ContentLength := 2; Body := Sim.body_of "[]" |}
                  eq_refl eq_refl)).
Defined.

Lemma GetReceipt_takes_the_first_edge_witness :
  outcome (GetReceipt
             (Sim.env (Sim.with_edges
                         (Some [Lab.edge Lab.receipt; Lab.edge zero_Receipt])))
             (Ctx 1) "tx-1" (Sim.client_of Sim.matic false) [])
  = Ret (Lab.receipt, None).
Proof.
  exact (GetReceipt_takes_the_first_edge
           (Sim.env (Sim.with_edges
                       (Some [Lab.edge Lab.receipt; Lab.edge zero_Receipt])))
           (Ctx 1) "tx-1" (Sim.client_of Sim.matic false) []
           {| StatusCode := 200;
              Header := [("Content-Type", "application/json")];
              ContentLength := 5; Body := Sim.body_of "[...]" |}
           {| Data := {| Transactions :=
                {| Edges := Some [Lab.edge Lab.receipt; Lab.edge zero_Receipt] |} |} |}
           (Lab.edge Lab.receipt) [Lab.edge zero_Receipt]
           eq_refl eq_refl eq_refl eq_refl eq_refl eq_refl).
Defined.

(** X14, [GetReceipt_soft_miss], at work: a nil edge list gives the empty
    receipt and no error. *)
Lemma GetReceipt_soft_miss_witness :
  outcome (GetReceipt (Sim.env (Sim.with_edges None)) (Ctx 1) "tx-1"
             (Sim.client_of Sim.matic false) [])
  = Ret (zero_Receipt, None).
Proof.
  exact (GetReceipt_soft_miss (Sim.env (Sim.with_edges None)) (Ctx 1) "tx-1"
           (Sim.client_of Sim.matic false) []
           {| StatusCode := 200;
              Header := [("Content-Type", "application/json")];
              ContentLength := 4; Body := Sim.body_of "null" |}
           {| Data := {| Transactions := {| Edges := None |} |} |}
           eq_refl eq_refl eq_refl eq_refl eq_refl eq_refl).
Defined.

Lemma Download_hands_over_the_body_witness :
  outcome (Download (Sim.env Sim.funded) (Ctx 1) "tx-1"
             (Sim.client_of Sim.matic false) [])
  = Ret (Some {| f_Data := Sim.body_of "info";
                 f_Header := [("Content-Type", "application/json")];
                 f_ContentLength := 4;
                 f_ContentType := "application/json" |}, None).
Proof.
  exact (proj2 (Download_hands_over_the_body (Sim.env Sim.funded) (Ctx 1) "tx-1"
                  (Sim.client_of Sim.matic false) [])
           {| StatusCode := 200;
              Header := [("Content-Type", "application/json")];
              ContentLength := 4; Body := Sim.body_of "info" |}
           eq_refl eq_refl eq_refl eq_refl).
Defined.

(** ** What the decoder says goes *)

Section Decoded.

Context (E : Env).

(** X16. On an accepted response [GetPrice] and [GetMetaData] return the
    decoder's pair as it is: the value it decoded and its error together. *)
Theorem decoder_result_is_returned :
  forall (ctx : Context) (n : Z) (txId : string) (c : Client) (h : history)
         (resp : Response),
    let price_url := network c +:+ "/price/" +:+ GetName (currency c) +:+ "/" +:+ pretty n in
    let meta_url := _defaultGateway E +:+ "/tx/" +:+ txId in
    statusCheck E resp = None ->
    (request_error E "GET" price_url = None ->
     client_Do E (client c) h (get_request ctx price_url) = inl resp ->
     ctx_Err E ctx (EvDo (get_request ctx price_url) :: h) = None ->
     outcome (GetPrice E ctx n c h) = Ret (decodeBody_BigInt E (Body resp))) /\
    (request_error E "GET" meta_url = None ->
     client_Do E (client c) h (get_request ctx meta_url) = inl resp ->
     ctx_Err E ctx (EvDo (get_request ctx meta_url) :: h) = None ->
     outcome (GetMetaData E ctx txId c h)
     = Ret (decodeBody_Transaction E (Body resp))).
Proof.
  intros ctx n txId c h resp price_url meta_url Hst. split.
  - intros Hq HDo Hctx. unfold GetPrice, NewRequestWithContext.
    rewrite (outcome_step _ _ _ _ c) by reflexivity.
    change (_pricePath (network c) (GetName (currency c)) n) with price_url.
    rewrite Hq. fold (get_request ctx price_url).
    rewrite (outcome_step _ _ _ _ (inl resp))
      by (rewrite Do_run; first [exact (f_equal Ret HDo) | reflexivity]).
    change (after (Do E (get_request ctx price_url)) c (after get_client c h))
      with (EvDo (get_request ctx price_url) :: h).
    now rewrite defer_run, select_Done_run, Hctx, Hst.
  - intros Hq HDo Hctx. unfold GetMetaData, NewRequestWithContext.
    change (_txPath (_defaultGateway E) txId) with meta_url.
    rewrite Hq. fold (get_request ctx meta_url).
    rewrite (outcome_step _ _ _ _ (inl resp))
      by (rewrite Do_run; first [exact (f_equal Ret HDo) | reflexivity]).
    change (after (Do E (get_request ctx meta_url)) c h)
      with (EvDo (get_request ctx meta_url) :: h).
    now rewrite defer_run, select_Done_run, Hctx, Hst.
Qed.

(** X17. A payload the signer rejects is not transmitted: [Upload]
    returns the signer's error and emits nothing. *)
Theorem Upload_stops_on_signing_error :
  forall (ctx : Context) (file : bytes) (tags : list Tag)
         (c : Client) (h : history) (err : error),
    snd (signFile E file (GetSinger (currency c)) false tags) = Some err ->
    Upload E ctx file tags c h = MkRes (Ret (zero_Transaction, Some err)) c [].
Proof.
  intros ctx file tags c h err Hs. unfold Upload, upload.
  rewrite (bind_step _ _ _ _ c) by reflexivity.
  rewrite (bind_step _ _ _ _ c) by reflexivity.
  destruct (signFile E file (GetSinger (currency c)) false tags) as [b e].
  simpl in Hs. subst e. reflexivity.
Qed.

End Decoded.

Lemma decoder_result_is_returned_witness :
  outcome (GetPrice (Sim.env Sim.funded) (Ctx 1) 5
             (Sim.client_of Sim.matic false) [])
  = Ret (Some 50, None).
Proof.
  exact (proj1 (decoder_result_is_returned (Sim.env Sim.funded) (Ctx 1) 5 "tx-1"
                  (Sim.client_of Sim.matic false) []
                  {| StatusCode := 200; Header := []; ContentLength := 0;
                     Body := Sim.body_of "50" |} eq_refl)
           eq_refl eq_refl eq_refl).
Defined.

Lemma Upload_stops_on_signing_error_witness :
  Upload Lab.signer_rejects (Ctx 1) Sim.payload []
    (Sim.client_of Sim.matic true) []
  = MkRes (Ret (zero_Transaction, Some (ErrExternal "signer" "rejected")))
      (Sim.client_of Sim.matic true) [].
Proof.
  exact (Upload_stops_on_signing_error Lab.signer_rejects (Ctx 1) Sim.payload []
           (Sim.client_of Sim.matic true) [] (ErrExternal "signer" "rejected")
           eq_refl).
Defined.

(** ** The price URL tells the size *)

Lemma string_app_inv_head (s a b : string) : s +:+ a = s +:+ b -> a = b.
Proof.
  induction s as [|x s IH]; simpl; intros H; [exact H|].
  injection H as H. now apply IH.
Qed.

(** X19. For one node and one currency, two sizes with the same price
    URL are the same size. *)
Theorem price_url_determines_size :
  forall (node cur : string) (n1 n2 : Z),
    _pricePath node cur n1 = _pricePath node cur n2 -> n1 = n2.
Proof.
  intros node cur n1 n2 H. unfold _pricePath in H.
  do 4 apply string_app_inv_head in H.
  now apply (inj pretty) in H.
Qed.

Lemma price_url_determines_size_witness : (5 : Z) = 5.
Proof.
  exact (price_url_determines_size Sim.node "matic" 5 5 eq_refl).
Defined.

Section Construction_more.

Context (E : Env).

Lemma graft_nil_graft {A} (pre : list event) (r : Res A) :
  graft [] (graft pre r) = graft pre r.
Proof. reflexivity. Qed.

(** The construction up to the query of the node. *)
Lemma New_prepares node cur dbg l h :
  logger_New E default_logger_options = inl l ->
  New E node cur dbg [] new_Client h
  = graft []
      (bind (getTokenContractAddress E node cur)
         (fun r : string * option error =>
            let '(contract, err) := r in
            match err with
            | Some err => ret (None, Some err)
            | None =>
                mu_Unlock;;
                modify (fun irys => set_contract irys contract);;
                let* irys := get_client in
                ret (Some irys, None)
            end)
         (default_client node cur dbg l true "") h).
Proof.
  intros Hlog. unfold New.
  do 7 (rewrite (bind_run _ _ _ _ tt) by reflexivity; new_fields).
  erewrite bind_run by reflexivity. new_fields.
  cbn [fold_left obj client_set HTTPClient_set negb].
  rewrite (bind_run _ _ _ _ tt) by reflexivity. new_fields.
  erewrite bind_run by reflexivity. new_fields.
  rewrite Hlog. rewrite bind_assoc.
  rewrite (bind_run _ _ _ _ tt) by reflexivity. new_fields.
  rewrite (bind_run _ _ _ _ None) by reflexivity. new_fields.
  rewrite (bind_run _ _ _ _ tt) by reflexivity. new_fields.
  destruct dbg; new_fields.
  - rewrite (bind_run _ _ _ _ tt) by reflexivity. new_fields.
    erewrite bind_run by reflexivity. new_fields.
    rewrite (bind_run _ _ _ _ tt) by reflexivity. new_fields.
    rewrite (bind_run _ _ _ _ tt) by (now rewrite mu_Lock_run).
    unfold after. rewrite !mu_Lock_run by reflexivity. new_fields.
    rewrite !graft_nil_graft.
    match goal with
    | |- graft [] (_ ?c0 h) = _ =>
        change c0 with (default_client node cur true l true "")
    end.
    reflexivity.
  - rewrite (bind_run _ _ _ _ tt) by reflexivity. new_fields.
    erewrite bind_run by reflexivity. new_fields.
    rewrite (bind_run _ _ _ _ tt) by reflexivity. new_fields.
    rewrite (bind_run _ _ _ _ tt) by (now rewrite mu_Lock_run).
    unfold after. rewrite !mu_Lock_run by reflexivity. new_fields.
    rewrite !graft_nil_graft.
    match goal with
    | |- graft [] (_ ?c0 h) = _ =>
        change c0 with (default_client node cur false l true "")
    end.
    reflexivity.
Qed.

Lemma getTokenContractAddress_preserves node cur :
  preserves (getTokenContractAddress E node cur).
Proof. unfold getTokenContractAddress, Get. preserves_walk. Qed.

(** X20. With no option given, [New] builds this client: the node, the
    currency and the debug flag as passed, five retries between 1 and 30
    seconds, a 300 second timeout, a clone of the default transport, the
    console logger (handed to the HTTP client only in debug mode), the
    mutex released and the address the node advertised; [Close] on it
    releases the idle connections of that transport. *)
Theorem New_default_client :
  forall (node : Node) (cur : Currency) (dbg : bool) (h : history)
         (l : Logger) (resp : Response) (info : NodeInfo) (a : string),
    let r := New E node cur dbg [] new_Client h in
    let c := default_client node cur dbg l false a in
    logger_New E default_logger_options = inl l ->
    request_error E "GET" node = None ->
    client_Do E (client c) h (info_request node) = inl resp ->
    statusCheck E resp = None ->
    decodeBody_NodeInfo E (Body resp) = (info, None) ->
    Addresses info !! GetName cur = Some a ->
    outcome r = Ret (Some c, None) /\
    client_after r = c /\
    emitted (Close c (rev (emitted r) ++ h))
    = [EvCloseIdleConnections DefaultTransport_Clone].
Proof.
  intros node cur dbg h l resp info a r c Hlog Hq HDo Hst Hdec Ha.
  assert (Hr : r = New E node cur dbg [] new_Client h) by reflexivity.
  clearbody r. rewrite (New_prepares node cur dbg l h Hlog) in Hr.
  destruct (getTokenContractAddress_run E node cur
              (default_client node cur dbg l true "") h resp info l
              Hq HDo Hst Hdec eq_refl) as (Hc & _ & Hout).
  rewrite Ha in Hout.
  rewrite (bind_run _ _ _ _ _ Hout), Hc in Hr.
  rewrite (bind_run _ _ _ _ tt) in Hr by (now rewrite mu_Unlock_run).
  unfold after in Hr at 1. rewrite !mu_Unlock_run in Hr by reflexivity.
  cbn [client_after emitted rev app] in Hr.
  rewrite (bind_run _ _ _ _ tt) in Hr by reflexivity.
  cbn [modify client_after] in Hr.
  erewrite bind_run in Hr by reflexivity.
  rewrite Hr, !outcome_graft, !client_after_graft.
  repeat split.
Qed.

(** X21. When the console logger cannot be built, [New] returns that
    error before it contacts the node. *)
Theorem New_stops_without_logger :
  forall (node : Node) (cur : Currency) (dbg : bool) (h : history) (err : error),
    logger_New E default_logger_options = inr err ->
    outcome (New E node cur dbg [] new_Client h) = Ret (None, Some err) /\
    emitted (New E node cur dbg [] new_Client h) = [].
Proof.
  intros node cur dbg h err Hlog.
  set (r := New E node cur dbg [] new_Client h).
  assert (Hr : r = New E node cur dbg [] new_Client h) by reflexivity.
  clearbody r. unfold New in Hr.
  do 7 (rewrite (bind_run _ _ _ _ tt) in Hr by reflexivity; new_fields in Hr).
  erewrite bind_run in Hr by reflexivity. new_fields in Hr.
  cbn [fold_left obj client_set HTTPClient_set negb] in Hr.
  rewrite (bind_run _ _ _ _ tt) in Hr by reflexivity. new_fields in Hr.
  erewrite bind_run in Hr by reflexivity. revert Hr. new_fields.
  rewrite Hlog. intros Hr.
  rewrite (bind_run _ _ _ _ (Some err)) in Hr by reflexivity.
  rewrite Hr, !outcome_graft, !emitted_graft. split; reflexivity.
Qed.

(** X22. When the query of the node fails, [New] returns that error and
    no client, having emitted what the query emitted; the object it
    abandons still holds its mutex. *)
Theorem New_returns_the_query_error :
  forall (node : Node) (cur : Currency) (dbg : bool) (h : history)
         (l : Logger) (x : string) (err : error),
    let r := New E node cur dbg [] new_Client h in
    let c := default_client node cur dbg l true "" in
    logger_New E default_logger_options = inl l ->
    outcome (getTokenContractAddress E node cur c h) = Ret (x, Some err) ->
    outcome r = Ret (None, Some err) /\
    emitted r = emitted (getTokenContractAddress E node cur c h) /\
    mu (client_after r) = Some {| locked := true |}.
Proof.
  intros node cur dbg h l x err r c Hlog Hout.
  assert (Hr : r = New E node cur dbg [] new_Client h) by reflexivity.
  clearbody r. rewrite (New_prepares node cur dbg l h Hlog) in Hr.
  rewrite (bind_run _ _ _ _ _ Hout) in Hr.
  rewrite (getTokenContractAddress_preserves node cur) in Hr.
  rewrite Hr, !outcome_graft, !client_after_graft, !emitted_graft.
  cbn [outcome emitted client_after ret app]. rewrite app_nil_r.
  repeat split.
Qed.

End Construction_more.

Lemma New_default_client_witness :
  outcome (New (Sim.env Sim.funded) Sim.node Sim.matic true [] new_Client [])
  = Ret (Some (Sim.client_of Sim.matic true), None).
Proof.
  exact (proj1 (New_default_client (Sim.env Sim.funded) Sim.node Sim.matic true []
                  {| logger_id := 7 |}
                  {| StatusCode := 200;
                     Header := [("Content-Type", "application/json")];
                     ContentLength := 4; Body := Sim.body_of "info" |}
                  {| Addresses := {[ "matic" := "0xa11ce" ]} |} "0xa11ce"
                  eq_refl eq_refl eq_refl eq_refl eq_refl eq_refl)).
Defined.

Lemma New_stops_without_logger_witness :
  emitted (New Lab.no_logger Sim.node Sim.matic false [] new_Client []) = [].
Proof.
  exact (proj2 (New_stops_without_logger Lab.no_logger Sim.node Sim.matic false []
                  (ErrExternal "logger" "cannot build") eq_refl)).
Defined.

Lemma New_returns_the_query_error_witness :
  outcome (New Lab.unreachable Sim.node Sim.matic false [] new_Client [])
  = Ret (None, Some Lab.timeout).
Proof.
  exact (proj1 (New_returns_the_query_error Lab.unreachable Sim.node Sim.matic
                  false [] {| logger_id := 7 |} "" Lab.timeout eq_refl eq_refl)).
Defined.

Section Construction_pointers.

Context (E : Env).

(** X24. When an option has left the client's [retryablehttp] client, its
    [http.Client] or its mutex nil, [New] panics on the dereference,
    before it sends a request. *)
Theorem New_needs_its_pointers :
  forall (node : Node) (cur : Currency) (dbg : bool) (options : list Option)
         (h : history) (l : Logger),
    let d := after_options node cur dbg options in
    let r := New E node cur dbg options new_Client h in
    logger_New E default_logger_options = inl l ->
    client_set d = false \/ HTTPClient_set d = false \/ mu (obj d) = None ->
    outcome r = Panic "invalid memory address or nil pointer dereference" /\
    emitted r = [].
Proof.
  intros node cur dbg options h l d r Hlog Hnil.
  assert (Hr : r = New E node cur dbg options new_Client h) by reflexivity.
  clearbody r. unfold New in Hr.
  do 7 (rewrite (bind_run _ _ _ _ tt) in Hr by reflexivity; new_fields in Hr).
  erewrite bind_run in Hr by reflexivity. new_fields in Hr. cbv zeta in Hr.
  change (fold_left _ options _) with d in Hr.
  clearbody d.
  rewrite (bind_run _ _ _ _ tt) in Hr by reflexivity. new_fields in Hr.
  destruct d as [c0 cs hs]. cbn [obj client_set HTTPClient_set] in *.
  rewrite (bind_run _ _ _ _ c0) in Hr by reflexivity.
  cbn [get_client client_after emitted outcome after rev app] in Hr.
  assert (Hc1 : exists c1,
             mu c1 = mu c0 /\
             forall B (k : option error -> M B),
               bind match logging c0 with
                    | Some _ => ret None
                    | None =>
                        match logger_New E default_logger_options with
                        | inl l0 =>
                            modify (fun irys => set_logging irys (Some l0));;
                            ret None
                        | inr err => ret (Some err)
                        end
                    end k c0 h = graft [] (k None c1 h)).
  { destruct (logging c0) as [l0|] eqn:Hl0.
    - exists c0. split; [reflexivity|]. intros B k.
      now rewrite (bind_run _ _ _ _ None) by reflexivity.
    - rewrite Hlog. exists (set_logging c0 (Some l)). split; [reflexivity|].
      intros B k. rewrite bind_assoc.
      rewrite (bind_run _ _ _ _ tt) by reflexivity.
      cbn [modify client_after emitted outcome after rev app].
      rewrite (bind_run _ _ _ _ None) by reflexivity.
      reflexivity. }
  destruct Hc1 as (c1 & Hm1 & Hk). rewrite Hk in Hr. clear Hk.
  destruct cs; cbn [negb] in Hr.
  2: { rewrite Hr. split; reflexivity. }
  rewrite (bind_run _ _ _ _ tt) in Hr by reflexivity.
  cbn [modify client_after emitted outcome after rev app] in Hr.
  rewrite (bind_run _ _ _ _ tt) in Hr by now destruct dbg.
  replace (after _ _ h) with h in Hr by now destruct dbg.
  match type of Hr with
  | context [emitted (?m ?c h)] =>
      lazymatch m with
      | (if negb dbg then _ else _) =>
          replace (emitted (m c h)) with (@nil event) in Hr by now destruct dbg
      end
  end.
  destruct hs; cbn [negb] in Hr.
  2: { rewrite Hr. split; reflexivity. }
  destruct Hnil as [Hnil|[Hnil|Hnil]]; try discriminate.
  rewrite <- Hm1 in Hnil.
  match type of Hr with
  | context [bind get_client _ ?c _] =>
      assert (Hm2 : mu c = None)
        by (destruct dbg; exact Hnil);
      generalize dependent c; intros c2; intros
  end.
  rewrite (bind_run _ _ _ _ c2) in Hr by reflexivity.
  cbn [get_client client_after emitted outcome after rev app] in Hr.
  rewrite (bind_run _ _ _ _ tt) in Hr by now destruct (Transport _).
  match type of Hr with
  | context [bind mu_Lock _ ?c _] =>
      assert (Hm3 : mu c = None) by (destruct (Transport _); exact Hm2);
      generalize dependent c; intros c3; intros
  end.
  replace (after _ _ h) with h in Hr by now destruct (Transport _).
  match type of Hr with
  | context [emitted (?m c2 h)] =>
      replace (emitted (m c2 h)) with (@nil event) in Hr
        by now destruct (Transport _)
  end.
  assert (HL : mu_Lock c3 h
               = MkRes (Panic "invalid memory address or nil pointer dereference")
                   c3 []).
  { unfold mu_Lock. rewrite (bind_run _ _ _ _ c3) by reflexivity.
    cbn [get_client client_after emitted outcome after rev app].
    rewrite Hm3. reflexivity. }
  rewrite (bind_stop _ _ _ _ _ (f_equal outcome HL)) in Hr.
  rewrite HL in Hr. rewrite Hr. split; reflexivity.
Qed.

End Construction_pointers.

(** The theorem at work: an option that clears the mutex. *)
Lemma New_needs_its_pointers_witness :
  outcome (New (Sim.env Sim.funded) Sim.node Sim.matic false
             [drops_mutex] new_Client [])
  = Panic "invalid memory address or nil pointer dereference".
Proof.
  exact (proj1 (New_needs_its_pointers (Sim.env Sim.funded) Sim.node Sim.matic
                  false [drops_mutex] [] {| logger_id := 7 |} eq_refl
                  (or_intror (or_intror eq_refl)))).
Defined.

Lemma error_comes_with_zero_value_witness :
  (None : BigInt) = None.
Proof.
  exact (proj1 (error_comes_with_zero_value Lab.unreachable (Ctx 1) "tx-1"
                  (Sim.client_of Sim.matic false) [] Lab.timeout)
           None eq_refl).
Defined.

Lemma debug_off_logs_nothing_witness :
  ~ is_log (EvCreateTx (Some 50)).
Proof.
  apply (debug_off_logs_nothing (Sim.env Sim.short) (Ctx 1) (Some 50)
           Sim.payload [] Sim.node Sim.matic (Sim.client_of Sim.matic false) []).
  - reflexivity.
  - right. right. left. vm_compute. left. reflexivity.
Defined.
